(** * spreadsheet_to_projects: from a workbook to projects.json

    A shallow embedding of [scripts/spreadsheet_to_projects.py] and the
    properties of its output.

    The command line, the log and the summary printed under
    [--show_projects] have no part in what is written and are left out.

    Text is a [string]: a sequence of characters with code points below
    256.  Every cell of the workbook is a text cell.  A dictionary is a
    [gmap], a set a [gset]; the order in which the interpreter walks a
    dictionary or a set is not fixed by the language, so every loop over
    one takes its order from an [IterOrder], and the results are shown not
    to depend on it. *)

From Stdlib Require Import ZArith Ascii String.
From stdpp Require Import base option list gmap strings sorting pretty.

Open Scope string_scope.
Open Scope Z_scope.

Set Warnings "-clear-no-such-hyp".

(** ** Exceptions *)

(** The exceptions the script can raise before it writes its output.
    Nothing in the script catches any of them. *)
Inductive exn : Set :=
  | IndexError   (* a cell outside the grid *)
  | ValueError   (* int() on text that is not an integer *)
  | TypeError.   (* json.dump on a value that is not serialisable *)

Inductive Result (A : Type) : Type :=
  | Ok (a : A)
  | Raise (e : exn).
Arguments Ok {A} a.
Arguments Raise {A} e.

#[global] Instance Result_ret : MRet Result := fun A a => Ok a.
#[global] Instance Result_bind : MBind Result := fun A B f m =>
  match m with
  | Ok a => f a
  | Raise e => Raise e
  end.

Definition raises {A} (m : Result A) : Prop :=
  match m with Ok _ => False | Raise _ => True end.

(** ** The string methods the script calls *)

Module Py.

Definition quote : ascii := ascii_of_nat 34.

(** [s.startswith(p)] *)
Fixpoint startswith (s p : string) {struct p} : bool :=
  match p, s with
  | EmptyString, _ => true
  | String _ _, EmptyString => false
  | String a p', String b s' => if decide (a = b) then startswith s' p' else false
  end.

(** [s.rfind(sub)]: the highest index at which [sub] occurs, or -1. *)
Fixpoint rfind (s sub : string) : Z :=
  match s with
  | EmptyString => if startswith s sub then 0 else -1
  | String _ s' =>
      let r := rfind s' sub in
      if decide (0 <= r) then r + 1
      else if startswith s sub then 0 else -1
  end.

(** The [count] argument of [replace]: [None] is no limit. *)
Definition exhausted (count : option nat) : bool :=
  match count with Some O => true | _ => false end.
Definition spend (count : option nat) : option nat := pred <$> count.

(** [s.replace(old, new, count)] for a non-empty [old]: occurrences are
    taken from the left and do not overlap.  [skip] counts the characters
    of a matched occurrence that are still to be dropped. *)
Fixpoint replace_go (old new : string) (count : option nat) (skip : nat)
    (s : string) : string :=
  match s with
  | EmptyString => EmptyString
  | String c s' =>
      match skip with
      | S k => replace_go old new count k s'
      | O =>
          if negb (exhausted count) && startswith s old
          then new +:+ replace_go old new (spend count) (pred (String.length old)) s'
          else String c (replace_go old new count O s')
      end
  end.

(** [s.replace("", new, count)]: [new] goes before every character and
    at the end. *)
Fixpoint replace_empty (new : string) (count : option nat) (s : string) : string :=
  if exhausted count then s else
  match s with
  | EmptyString => new
  | String c s' => new +:+ String c (replace_empty new (spend count) s')
  end.

Definition replace (s old new : string) (count : option nat) : string :=
  match old with
  | EmptyString => replace_empty new count s
  | String _ _ => replace_go old new count O s
  end.

(** [s.lower()] on code points below 256: the letters A to Z, and the
    capital letters of Latin-1 (0xC0 to 0xDE without the multiplication
    sign 0xD7), move up by 32. *)
Definition lower_char (c : ascii) : ascii :=
  let n := N_of_ascii c in
  if decide ((65 <= n <= 90) \/ (192 <= n <= 222 /\ n <> 215))%N
  then ascii_of_N (n + 32) else c.

Fixpoint lower (s : string) : string :=
  match s with
  | EmptyString => EmptyString
  | String c s' => String (lower_char c) (lower s')
  end.

End Py.

(** ** int() and str() *)

Module PyInt.

(** The white space [int] strips from both ends of its argument. *)
Definition is_space (c : ascii) : bool :=
  let n := N_of_ascii c in
  bool_decide ((9 <= n <= 13) \/ n = 32 \/ n = 133 \/ n = 160)%N.

Definition digit_val (c : ascii) : option Z :=
  let n := N_of_ascii c in
  if decide (48 <= n <= 57)%N then Some (Z.of_N n - 48) else None.

Fixpoint lstrip (s : string) : string :=
  match s with
  | EmptyString => EmptyString
  | String c s' => if is_space c then lstrip s' else s
  end.

Fixpoint all_space (s : string) : bool :=
  match s with
  | EmptyString => true
  | String c s' => is_space c && all_space s'
  end.

(** What the scanner has just read: nothing yet, a digit, an underscore. *)
Inductive prev : Set := Start | Digit | Under.

(** The digits of a decimal literal.  One underscore may stand between
    two digits; after the last digit only white space may follow. *)
Fixpoint digits (acc : Z) (p : prev) (s : string) : option Z :=
  match s with
  | EmptyString => match p with Digit => Some acc | _ => None end
  | String c s' =>
      match digit_val c with
      | Some d => digits (10 * acc + d) Digit s'
      | None =>
          match p with
          | Digit =>
              if decide (c = "_"%char) then digits acc Under s'
              else if all_space s then Some acc else None
          | _ => None
          end
      end
  end.

Definition parse (s : string) : option Z :=
  match lstrip s with
  | String "+" r => digits 0 Start r
  | String "-" r => Z.opp <$> digits 0 Start r
  | r => digits 0 Start r
  end.

(** [int(s)] *)
Definition int (s : string) : Result Z :=
  match parse s with
  | Some z => Ok z
  | None => Raise ValueError
  end.

(** [str(z)] *)
Definition str (z : Z) : string := pretty z.

End PyInt.

(** ** The workbook *)

(** A sheet as the reader hands it over: its name and its grid of
    cells.  Row 0 holds the headers. *)
Record worksheet : Type := {
  name : string;
  grid : list (list string)
}.

Definition nrows (sheet : worksheet) : nat := length (grid sheet).

(** [sheet.cell(row, col).value]; a position outside the grid raises. *)
Definition cell (sheet : worksheet) (row col : nat) : Result string :=
  match grid sheet !! row with
  | Some r => match r !! col with
              | Some v => Ok v
              | None => Raise IndexError
              end
  | None => Raise IndexError
  end.

(** ** Normalisers *)

Definition normalized_ghrepo (repo : string) : string :=
  let normalized := Py.replace repo "https://" "http://" (Some 1%nat) in
  let normalized := Py.lower normalized in
  normalized.

Definition normalized_bzrepo (url product component : string) : string :=
  let normalized := url +:+ "/bugs/buglist.cgi?" +:+
      "product=" +:+ Py.replace product " " "+" None +:+
      "&component=" +:+ Py.replace component " " "+" None in
  normalized.

(** ** The sheet classes *)

(** What a subclass of [Sheet] may override. *)
Record SheetClass : Type := {
  repo_columns : list nat;
  project_column : nat;
  _get_repo : list nat -> worksheet -> nat -> Result string;
  _normalize_repo : string -> Result string
}.

(** [columns[i]] *)
Definition item (columns : list nat) (i : nat) : Result nat :=
  match columns !! i with
  | Some c => Ok c
  | None => Raise IndexError
  end.

Definition Sheet : SheetClass := {|
  repo_columns := [0%nat];
  project_column := 1;
  _get_repo := fun columns sheet row =>
    c ← item columns 0; cell sheet row c;
  _normalize_repo := fun repo => Ok repo
|}.

Definition GitHubSheet : SheetClass := Sheet.

Definition BugzillaSheet : SheetClass := {|
  repo_columns := [0%nat; 1%nat; 2%nat];
  project_column := 3;
  _get_repo := fun columns sheet row =>
    c0 ← item columns 0; url ← cell sheet row c0;
    c1 ← item columns 1; product ← cell sheet row c1;
    c2 ← item columns 2; component ← cell sheet row c2;
    Ok (normalized_bzrepo url product component);
  _normalize_repo := _normalize_repo Sheet
|}.

Definition EmailSheet : SheetClass := {|
  repo_columns := repo_columns Sheet;
  project_column := project_column Sheet;
  _get_repo := _get_repo Sheet;
  _normalize_repo := fun repo =>
    if decide (Py.rfind repo "news.mozilla.org-" = 0)
    then Ok (Py.replace repo "news.mozilla.org-" "news.mozilla.org " None)
    else Ok repo
|}.

Definition DiscourseSheet : SheetClass := {|
  repo_columns := [1%nat];
  project_column := 2;
  _get_repo := _get_repo Sheet;
  _normalize_repo := fun repo => z ← PyInt.int repo; Ok (PyInt.str z)
|}.

Definition StackOverflow_url : string := "http://stackoverflow.com/questions/tagged/".

Definition StackOverflow : SheetClass := {|
  repo_columns := repo_columns Sheet;
  project_column := project_column Sheet;
  _get_repo := _get_repo Sheet;
  _normalize_repo := fun repo => Ok (StackOverflow_url +:+ repo)
|}.

Definition Meetup : SheetClass := Sheet.

Definition IRC : SheetClass := {|
  repo_columns := repo_columns Sheet;
  project_column := project_column Sheet;
  _get_repo := _get_repo Sheet;
  _normalize_repo := fun repo =>
    let supybot_repo :=
      "irc://irc.mozilla.org/" +:+ repo +:+
      " /home/bitergia/irc/percevalbot/logs/ChannelLogger/mozilla/#" +:+ repo in
    Ok supybot_repo
|}.

(** ** Sheet.get_repos *)

(** One turn of the loop of [get_repos]: the repo and the project of a
    row.  The counters of [self.repos] feed the printed summary only and
    are left out. *)
Definition row_entry (cls : SheetClass) (sheet : worksheet) (row : nat)
    : Result (string * string) :=
  repo ← _get_repo cls (repo_columns cls) sheet row;
  repo ← _normalize_repo cls repo;
  project ← cell sheet row (project_column cls);
  let project := if decide (project = "") then "Unknown" else project in
  Ok (repo, project).

Fixpoint get_repos_from (cls : SheetClass) (sheet : worksheet)
    (rows : list nat) (projects : gmap string string)
    : Result (gmap string string) :=
  match rows with
  | [] => Ok projects
  | row :: rows' =>
      e ← row_entry cls sheet row;
      get_repos_from cls sheet rows' (<[e.1 := e.2]> projects)
  end.

Definition get_repos (cls : SheetClass) (sheet : worksheet)
    : Result (gmap string string) :=
  get_repos_from cls sheet (seq 1 (nrows sheet - 1)) ∅.

(** ** Iteration order *)

(** The order in which a loop meets the items of a dictionary or the
    members of a set: some arrangement of them, and nothing more is
    known about it. *)
Record IterOrder : Type := {
  dict_items : forall {A : Type}, gmap string A -> list (string * A);
  dict_items_perm : forall (A : Type) (m : gmap string A),
    dict_items m ≡ₚ map_to_list m;
  set_items : gset string -> list string;
  set_items_perm : forall s : gset string, set_items s ≡ₚ elements s
}.

Definition canonical_order : IterOrder := {|
  dict_items := fun A m => map_to_list m;
  dict_items_perm := fun A m => reflexivity (map_to_list m);
  set_items := elements;
  set_items_perm := fun s => reflexivity (elements s)
|}.

Definition reversed_order : IterOrder := {|
  dict_items := fun A m => reverse (map_to_list m);
  dict_items_perm := fun A m => reverse_Permutation (map_to_list m);
  set_items := fun s => reverse (elements s);
  set_items_perm := fun s => reverse_Permutation (elements s)
|}.

(** ** main: reading the sheets *)

Fixpoint foldlM {A B : Type} (f : B -> A -> Result B) (b : B) (l : list A)
    : Result B :=
  match l with
  | [] => Ok b
  | a :: l' => b' ← f b a; foldlM f b' l'
  end.

(** The [git] entries: one per [github] repo, with [.git] appended. *)
Definition derive_git (o : IterOrder) (github : gmap string string)
    : gmap string string :=
  foldl (fun git e => <[e.1 +:+ ".git" := e.2]> git) ∅ (dict_items o github).

(** The body of the loop over [wb.sheets()]. *)
Definition read_sheet (o : IterOrder)
    (spreadsheet : gmap string (gmap string string)) (sheet : worksheet)
    : Result (gmap string (gmap string string)) :=
  if decide (name sheet = "Github") then
    repos ← get_repos GitHubSheet sheet;
    let spreadsheet := <["github" := repos]> spreadsheet in
    Ok (<["git" := derive_git o repos]> spreadsheet)
  else if decide (name sheet = "Bugzilla") then
    repos ← get_repos BugzillaSheet sheet;
    Ok (<["bugzilla" := repos]> spreadsheet)
  else if decide (name sheet = "Mailing lists") then
    repos ← get_repos EmailSheet sheet;
    Ok (<["nntp" := repos]> spreadsheet)
  else if decide (name sheet = "Discourse") then
    repos ← get_repos DiscourseSheet sheet;
    Ok (<["discourse" := repos]> spreadsheet)
  else if decide (name sheet = "StackOverflow") then
    repos ← get_repos StackOverflow sheet;
    Ok (<["stackexchange" := repos]> spreadsheet)
  else if decide (name sheet = "Meetup") then
    repos ← get_repos Meetup sheet;
    Ok (<["meetup" := repos]> spreadsheet)
  else if decide (name sheet = "IRC") then
    repos ← get_repos IRC sheet;
    Ok (<["supybot" := repos]> spreadsheet)
  else Ok spreadsheet.

Definition read_sheets (o : IterOrder) (wb : list worksheet)
    : Result (gmap string (gmap string string)) :=
  foldlM (read_sheet o) ∅ wb.

(** ** main: grouping by project *)

(** The body of the loop that files a repo under its project and its
    data source. *)
Definition add_repo (datasource repo project : string)
    (projects : gmap string (gmap string (gset string)))
    : gmap string (gmap string (gset string)) :=
  let projects :=
    if decide (is_Some (projects !! project)) then projects
    else <[project := ∅]> projects in
  let sources := projects !!! project in
  let sources :=
    if decide (is_Some (sources !! datasource)) then sources
    else <[datasource := ∅]> sources in
  <[project := <[datasource := {[repo]} ∪ sources !!! datasource]> sources]> projects.

Definition aggregate (o : IterOrder) (spreadsheet : gmap string (gmap string string))
    : gmap string (gmap string (gset string)) :=
  foldl (fun projects ds =>
           foldl (fun projects e => add_repo ds.1 e.1 e.2 projects)
                 projects (dict_items o ds.2))
        ∅ (dict_items o spreadsheet).

(** ** main: sorting and meta *)

(** What a key of a project can hold while [main] runs: the set the
    repos are gathered in, the sorted list that replaces it, the text of
    [meta]. *)
Inductive value : Type :=
  | VSet (s : gset string)
  | VList (l : list string)
  | VStr (s : string).

#[global] Instance value_inhabited : Inhabited value := populate (VStr "").

Fixpoint chars (s : string) : list string :=
  match s with
  | EmptyString => []
  | String c s' => String c EmptyString :: chars s'
  end.

(** [sorted(v)] *)
Definition sorted (o : IterOrder) (v : value) : value :=
  match v with
  | VSet s => VList (merge_sort String.le (set_items o s))
  | VList l => VList (merge_sort String.le l)
  | VStr s => VList (merge_sort String.le (chars s))
  end.

Definition finalize_project (o : IterOrder) (project : string)
    (sources : gmap string value) : gmap string value :=
  let sources :=
    foldl (fun sources e => <[e.1 := sorted o (sources !!! e.1)]> sources)
          sources (dict_items o sources) in
  if decide (is_Some (sources !! "meta")) then sources
  else <["meta" := VStr (Py.lower project)]> sources.

Definition finalize (o : IterOrder) (projects : gmap string (gmap string value))
    : gmap string (gmap string value) :=
  foldl (fun projects e =>
           <[e.1 := finalize_project o e.1 (projects !!! e.1)]> projects)
        projects (dict_items o projects).

(** ** add_adhoc_repositories *)

Definition __init_unknown_project (tree : gmap string (gmap string value))
    : gmap string (gmap string value) :=
  if decide (is_Some (tree !! "unknown")) then tree
  else <["unknown" := ∅]> tree.

(** [tree[project][key] = v] *)
Definition set_key (project key : string) (v : value)
    (tree : gmap string (gmap string value)) : gmap string (gmap string value) :=
  <[project := <[key := v]> (tree !!! project)]> tree.

Definition add_adhoc_repositories (projects_tree : gmap string (gmap string value))
    (spreadsheet : gmap string (gmap string string))
    : gmap string (gmap string value) :=
  let projects_tree := __init_unknown_project projects_tree in
  let projects_tree :=
    set_key "unknown" "bugzillarest" (VList ["https://bugzilla.mozilla.org"]) projects_tree in
  let projects_tree :=
    set_key "unknown" "discourse" (VList ["https://discourse.mozilla.org/"]) projects_tree in
  let projects_tree :=
    set_key "unknown" "mediawiki" (VList ["https://wiki.mozilla.org"]) projects_tree in
  let projects_tree :=
    set_key "unknown" "mozillaclub" (VList ["https://spreadsheets.google.com/feeds/cells/1QHl2bjBhMslyFzR5XXPzMLdzzx7oeSKTbgR5PM8qp64/ohaibtm/public/values?alt=json"]) projects_tree in
  let projects_tree :=
    set_key "unknown" "remo" (VList ["https://reps.mozilla.org"]) projects_tree in
  projects_tree.

(** ** main: the tree that is written *)

(** The dictionary of sets seen as a dictionary of values: the sorting
    loop overwrites the sets in place. *)
Definition as_values (projects : gmap string (gmap string (gset string)))
    : gmap string (gmap string value) :=
  fmap (M := gmap string) (fmap (M := gmap string) VSet) projects.

Definition main_tree (o : IterOrder) (wb : list worksheet)
    : Result (gmap string (gmap string value)) :=
  spreadsheet ← read_sheets o wb;
  let projects := aggregate o spreadsheet in
  let projects := finalize o (as_values projects) in
  Ok (add_adhoc_repositories projects spreadsheet).

(** ** json.dump(projects, json_fp, sort_keys=True, indent=4) *)

Module Json.

Definition backslash : ascii := ascii_of_nat 92.
Definition newline : ascii := ascii_of_nat 10.

Definition hex_digit (n : N) : ascii :=
  match n with
  | 0 => "0" | 1 => "1" | 2 => "2" | 3 => "3" | 4 => "4" | 5 => "5"
  | 6 => "6" | 7 => "7" | 8 => "8" | 9 => "9" | 10 => "a" | 11 => "b"
  | 12 => "c" | 13 => "d" | 14 => "e" | _ => "f"
  end%char%N.

Definition two (a b : ascii) : string := String a (String b EmptyString).

(** One character of a string literal, with [ensure_ascii] on. *)
Definition escape (c : ascii) : string :=
  let n := N_of_ascii c in
  if decide (c = Py.quote) then two backslash Py.quote
  else if decide (c = backslash) then two backslash backslash
  else if decide (n = 8)%N then two backslash "b"
  else if decide (n = 12)%N then two backslash "f"
  else if decide (n = 10)%N then two backslash "n"
  else if decide (n = 13)%N then two backslash "r"
  else if decide (n = 9)%N then two backslash "t"
  else if decide (32 <= n <= 126)%N then String c EmptyString
  else String backslash ("u00" +:+ two (hex_digit (n / 16)) (hex_digit (n mod 16))).

Fixpoint escape_all (s : string) : string :=
  match s with
  | EmptyString => EmptyString
  | String c s' => escape c +:+ escape_all s'
  end.

Definition encode_str (s : string) : string :=
  String Py.quote (escape_all s +:+ String Py.quote EmptyString).

Fixpoint spaces (n : nat) : string :=
  match n with
  | O => EmptyString
  | S n' => String " " (spaces n')
  end.

Definition newline_indent (level : nat) : string :=
  String newline (spaces (4 * level)).

Definition join (sep : string) (items : list string) : string :=
  match items with
  | [] => EmptyString
  | x :: rest => foldl (fun acc y => acc +:+ sep +:+ y) x rest
  end.

(** A container at nesting depth [level]: empty, it is the two
    brackets; otherwise one item per line, one level deeper. *)
Definition block (opening closing : string) (level : nat) (items : list string)
    : string :=
  match items with
  | [] => opening +:+ closing
  | _ =>
      opening +:+ newline_indent (S level) +:+
      join ("," +:+ newline_indent (S level)) items +:+
      newline_indent level +:+ closing
  end.

Definition dump_value (level : nat) (v : value) : Result string :=
  match v with
  | VStr s => Ok (encode_str s)
  | VList l => Ok (block "[" "]" level (encode_str <$> l))
  | VSet _ => Raise TypeError
  end.

Fixpoint mapR {A B : Type} (f : A -> Result B) (l : list A) : Result (list B) :=
  match l with
  | [] => Ok []
  | a :: l' => b ← f a; bs ← mapR f l'; Ok (b :: bs)
  end.

(** [sorted(dct.items())]: the keys of a dictionary differ, so the
    keys alone decide the order. *)
Definition key_le {A : Type} (a b : string * A) : Prop := String.le a.1 b.1.

#[global] Instance key_le_dec {A : Type} : RelDecision (@key_le A).
Proof. intros a b. unfold key_le. apply _. Defined.

Definition sorted_items {A : Type} (o : IterOrder) (d : gmap string A)
    : list (string * A) :=
  merge_sort key_le (dict_items o d).

Definition dump_dict {A : Type} (o : IterOrder) (dump : nat -> A -> Result string)
    (level : nat) (d : gmap string A) : Result string :=
  items ← mapR (fun e => v ← dump (S level) e.2;
                         Ok (encode_str e.1 +:+ ": " +:+ v))
               (sorted_items o d);
  Ok (block "{" "}" level items).

Definition dump (o : IterOrder) (tree : gmap string (gmap string value))
    : Result string :=
  dump_dict o (dump_dict o dump_value) 0 tree.

End Json.

(** ** main *)

(** The text written to the file named by [--json], or the exception
    that ends the run before the file is opened. *)
Definition main (o : IterOrder) (wb : list worksheet) : Result string :=
  projects ← main_tree o wb;
  Json.dump o projects.

(** ** Vocabulary of the statements *)

(** [sub] occurs in [s]. *)
Definition occurs (sub s : string) : Prop :=
  exists a b, s = a +:+ sub +:+ b.

(** In [a +:+ sub +:+ b] no occurrence of [sub] starts before the one
    shown. *)
Definition first_occurrence (sub a b : string) : Prop :=
  forall a' b', a +:+ sub +:+ b = a' +:+ sub +:+ b' ->
    (String.length a <= String.length a')%nat.

(** [self.projects[repo] = project] *)
Definition put (projects : gmap string string) (e : string * string)
    : gmap string string :=
  <[e.1 := e.2]> projects.

(** The sheet names [main] knows, each with the data source it feeds
    and the class that reads it. *)
Definition sheet_kind (n : string) : option (string * SheetClass) :=
  if decide (n = "Github") then Some ("github", GitHubSheet)
  else if decide (n = "Bugzilla") then Some ("bugzilla", BugzillaSheet)
  else if decide (n = "Mailing lists") then Some ("nntp", EmailSheet)
  else if decide (n = "Discourse") then Some ("discourse", DiscourseSheet)
  else if decide (n = "StackOverflow") then Some ("stackexchange", StackOverflow)
  else if decide (n = "Meetup") then Some ("meetup", Meetup)
  else if decide (n = "IRC") then Some ("supybot", IRC)
  else None.

(** The data sources a workbook can feed. *)
Definition kinds : list string :=
  ["github"; "git"; "bugzilla"; "nntp"; "discourse"; "stackexchange";
   "meetup"; "supybot"].

(** The last sheet of the workbook that bears the name [n]: each sheet
    overwrites what an earlier one of its name left. *)
Definition last_named (n : string) (wb : list worksheet) : option worksheet :=
  last (filter (fun sheet => name sheet = n) wb).

(** The sheets file [repo] under [project] for the data source
    [datasource]. *)
Definition files (spreadsheet : gmap string (gmap string string))
    (datasource repo project : string) : Prop :=
  exists repos, spreadsheet !! datasource = Some repos /\ repos !! repo = Some project.

(** The repos a tree of sets holds. *)
Definition holds (projects : gmap string (gmap string (gset string)))
    (project datasource repo : string) : Prop :=
  exists sources s, projects !! project = Some sources /\
                    sources !! datasource = Some s /\ repo ∈ s.

(** No project without a data source, no data source without a repo. *)
Definition populated (projects : gmap string (gmap string (gset string))) : Prop :=
  (forall project sources, projects !! project = Some sources -> sources <> ∅) /\
  (forall project sources datasource s,
     projects !! project = Some sources -> sources !! datasource = Some s -> s <> ∅).

(** What the loop over the sheets leaves in [spreadsheet]. *)
Definition sheets_read (o : IterOrder) (wb : list worksheet)
    (spreadsheet : gmap string (gmap string string)) : Prop :=
  (forall n kind cls, sheet_kind n = Some (kind, cls) ->
     forall repos, spreadsheet !! kind = Some repos <->
       exists sheet, last_named n wb = Some sheet /\ get_repos cls sheet = Ok repos) /\
  spreadsheet !! "git" = derive_git o <$> spreadsheet !! "github" /\
  (forall k, is_Some (spreadsheet !! k) -> k ∈ kinds).

(** The fixed end point [add_adhoc_repositories] files under each of
    its keys. *)
Definition adhoc_url (k : string) : option string :=
  if decide (k = "bugzillarest") then Some "https://bugzilla.mozilla.org"
  else if decide (k = "discourse") then Some "https://discourse.mozilla.org/"
  else if decide (k = "mediawiki") then Some "https://wiki.mozilla.org"
  else if decide (k = "mozillaclub") then Some "https://spreadsheets.google.com/feeds/cells/1QHl2bjBhMslyFzR5XXPzMLdzzx7oeSKTbgR5PM8qp64/ohaibtm/public/values?alt=json"
  else if decide (k = "remo") then Some "https://reps.mozilla.org"
  else None.

(** [tree[project][key]], when both keys are there. *)
Definition tree_get {A : Type} (tree : gmap string (gmap string A))
    (project key : string) : option A :=
  match tree !! project with
  | Some sources => sources !! key
  | None => None
  end.

(** The sorted list that replaces a set of repos. *)
Definition sorted_list (o : IterOrder) (s : gset string) : value :=
  VList (merge_sort String.le (set_items o s)).

(** An empty project cell is read as [Unknown]. *)
Definition project_of_cell (c : string) : string :=
  if decide (c = "") then "Unknown" else c.

(** Every space of [s] replaced by a plus sign. *)
Fixpoint plus_for_spaces (s : string) : string :=
  match s with
  | EmptyString => EmptyString
  | String c s' =>
      String (if decide (c = " "%char) then "+"%char else c) (plus_for_spaces s')
  end.

(** Workbooks the statements are tried on. *)
Definition wb_ex : list worksheet :=
  [ {| name := "Github";
       grid := [ ["repo"; "project"];
                 ["https://github.com/mozilla/B"; "Firefox OS"];
                 ["https://github.com/mozilla/a"; ""] ] |};
    {| name := "Bugzilla";
       grid := [ ["url"; "product"; "component"; "project"];
                 ["http://bugzilla.example"; "Core"; "XML Parser"; "Mozilla"] ] |};
    {| name := "Discourse";
       grid := [ ["name"; "category"; "project"];
                 ["addons"; "42"; "Mozilla"] ] |};
    {| name := "Notes";
       grid := [ ["free text"] ] |} ].

(** Two rows of one Bugzilla sheet that make the same key. *)
Definition wb_twice : list worksheet :=
  [ {| name := "Bugzilla";
       grid := [ ["url"; "product"; "component"; "project"];
                 ["http://bugzilla.example"; "Core"; "XML Parser"; "Gecko"];
                 ["http://bugzilla.example"; "Core"; "XML Parser"; "Mozilla"] ] |} ].

(** A Bugzilla row without a project. *)
Definition wb_blank : list worksheet :=
  [ {| name := "Bugzilla";
       grid := [ ["url"; "product"; "component"; "project"];
                 ["http://bugzilla.example"; "Core"; "XML Parser"; ""] ] |} ].


Definition from_Ok {A : Type} (d : A) (m : Result A) : A :=
  match m with Ok a => a | Raise _ => d end.

(** The trees [main] builds from them. *)
Definition tree_ex : gmap string (gmap string value) :=
  from_Ok ∅ (main_tree canonical_order wb_ex).
Definition tree_twice : gmap string (gmap string value) :=
  from_Ok ∅ (main_tree canonical_order wb_twice).
Definition tree_blank : gmap string (gmap string value) :=
  from_Ok ∅ (main_tree canonical_order wb_blank).
Definition tree_empty : gmap string (gmap string value) :=
  from_Ok ∅ (main_tree canonical_order []).


(** A text between double quotes. *)
Definition quoted (s : string) : string :=
  String Py.quote (s +:+ String Py.quote EmptyString).

(** The lines of a text. *)
Definition lines (l : list string) : string :=
  Json.join (String Json.newline EmptyString) l.

(** ** Sheet.get_repos with its counters *)

(** [self.repos[project] += 1], or [= 1] for a project not yet seen. *)
Definition count_project (repos : gmap string nat) (project : string)
    : gmap string nat :=
  if decide (is_Some (repos !! project))
  then <[project := (repos !!! project + 1)%nat]> repos
  else <[project := 1%nat]> repos.

(** The loop of [get_repos] with both dictionaries of the object:
    [self.projects] and [self.repos]. *)
Fixpoint get_repos_state (cls : SheetClass) (sheet : worksheet)
    (rows : list nat) (projects : gmap string string) (repos : gmap string nat)
    : Result (gmap string string * gmap string nat) :=
  match rows with
  | [] => Ok (projects, repos)
  | row :: rows' =>
      e ← row_entry cls sheet row;
      get_repos_state cls sheet rows'
        (<[e.1 := e.2]> projects) (count_project repos e.2)
  end.

Definition get_repos_counted (cls : SheetClass) (sheet : worksheet)
    : Result (gmap string string * gmap string nat) :=
  get_repos_state cls sheet (seq 1 (nrows sheet - 1)) ∅ ∅.

(** The lines printed under [show_projects]. *)
Definition show_projects (o : IterOrder) (sheet : worksheet)
    (repos : gmap string nat) : list string :=
  ("Analyzed sheet " +:+ name sheet) ::
  "Repos found in spreadsheet (per project)" ::
  ((fun project =>
      "Project: " +:+ project +:+ " repos:  " +:+ pretty (repos !!! project))
   <$> merge_sort String.le (dict_items o repos).*1).

(** ** More vocabulary *)

(** Every character of [s] passes the test [p]. *)
Fixpoint all_chars (p : ascii -> bool) (s : string) : bool :=
  match s with
  | EmptyString => true
  | String c s' => p c && all_chars p s'
  end.

(** A printable character of ASCII, or the line feed. *)
Definition plain (c : ascii) : bool :=
  let n := N_of_ascii c in
  bool_decide (n = 10 \/ 32 <= n <= 126)%N.

Definition not_space (c : ascii) : bool := bool_decide (c <> " "%char).

(** The sheets whose name [main] knows. *)
Definition known (sheet : worksheet) : Prop := is_Some (sheet_kind (name sheet)).

#[global] Instance known_dec (sheet : worksheet) : Decision (known sheet).
Proof. unfold known. apply _. Defined.

(** The number of entries filed under [project]. *)
Definition rows_of (project : string) (es : list (string * string)) : nat :=
  length (filter (fun e => e.2 = project) es).

(** A Bugzilla sheet without the column of the project. *)
Definition wb_short : list worksheet :=
  [ {| name := "Bugzilla";
       grid := [ ["url"; "product"; "component"];
                 ["http://bugzilla.example"; "Core"; "XML Parser"] ] |} ].


(** * Properties *)

(** ** The library functions on small inputs *)

Example startswith_ex : Py.startswith "news.mozilla.org-dev" "news.mozilla.org-" = true.
Proof. reflexivity. Qed.
Example rfind_ex : Py.rfind "abcabc" "bc" = 4.
Proof. reflexivity. Qed.
Example rfind_absent_ex : Py.rfind "abcabc" "x" = -1.
Proof. reflexivity. Qed.
Example replace_ex : Py.replace "aXXbXXc" "XX" "-" None = "a-b-c".
Proof. reflexivity. Qed.
Example replace_count_ex : Py.replace "aXXbXXc" "XX" "-" (Some 1%nat) = "a-bXXc".
Proof. reflexivity. Qed.
Example replace_overlap_ex : Py.replace "aaaa" "aa" "b" None = "bb".
Proof. reflexivity. Qed.
Example lower_ex : Py.lower "Mozilla QA" = "mozilla qa".
Proof. reflexivity. Qed.
Example int_42 : PyInt.int "42" = Ok 42.
Proof. reflexivity. Qed.
Example int_padded : PyInt.int " -0_42 " = Ok (-42).
Proof. reflexivity. Qed.
Example int_abc : PyInt.int "abc" = Raise ValueError.
Proof. reflexivity. Qed.
Example int_empty : PyInt.int "" = Raise ValueError.
Proof. reflexivity. Qed.
Example int_bad_underscore : PyInt.int "1__2" = Raise ValueError /\ PyInt.int "12_" = Raise ValueError.
Proof. split; reflexivity. Qed.
Example str_int_42 : PyInt.str 42 = "42" /\ PyInt.str (-7) = "-7" /\ PyInt.str 0 = "0".
Proof. repeat split; vm_compute; reflexivity. Qed.
Example stackoverflow_ex :
  _normalize_repo StackOverflow "firefox"
  = Ok "http://stackoverflow.com/questions/tagged/firefox".
Proof. reflexivity. Qed.
Example irc_ex :
  _normalize_repo IRC "devtools"
  = Ok "irc://irc.mozilla.org/devtools /home/bitergia/irc/percevalbot/logs/ChannelLogger/mozilla/#devtools".
Proof. reflexivity. Qed.
Example nntp_ex :
  _normalize_repo EmailSheet "news.mozilla.org-dev.platform"
  = Ok "news.mozilla.org dev.platform".
Proof. vm_compute. reflexivity. Qed.
Example int_control_space : PyInt.int (String (ascii_of_nat 28) "42") = Raise ValueError.
Proof. reflexivity. Qed.
Example lower_latin1 :
  Py.lower (String (ascii_of_nat 201) (String (ascii_of_nat 215) "")) =
  String (ascii_of_nat 233) (String (ascii_of_nat 215) "").
Proof. reflexivity. Qed.
Example header_skipped_empty_project :
  get_repos Meetup {| name := "Meetup";
                      grid := [ ["group"; "project"]; ["Mozilla-Berlin"; ""] ] |}
  = Ok {[ "Mozilla-Berlin" := "Unknown" ]}.
Proof. reflexivity. Qed.
Example short_row_raises :
  get_repos Meetup {| name := "Meetup"; grid := [ ["group"]; ["Mozilla-Berlin"] ] |}
  = Raise IndexError.
Proof. reflexivity. Qed.
Example bugzilla_row_ex :
  row_entry BugzillaSheet
    {| name := "Bugzilla";
       grid := [ ["url"; "product"; "component"; "project"];
                 ["http://bugzilla.example"; "Core"; "XML Parser"; "Mozilla"] ] |} 1
  = Ok ("http://bugzilla.example/bugs/buglist.cgi?product=Core&component=XML+Parser",
        "Mozilla").
Proof. reflexivity. Qed.

(** ** Occurrences of a substring *)

Section substrings.

Implicit Types s sub old new a b : string.

Lemma app_nil_l s : "" +:+ s = s.
Proof. reflexivity. Qed.

Lemma app_cons c a s : String c a +:+ s = String c (a +:+ s).
Proof. reflexivity. Qed.

Lemma string_app_assoc a b c : (a +:+ b) +:+ c = a +:+ b +:+ c.
Proof. induction a as [|x a IH]; [done|]. by rewrite !app_cons, IH. Qed.

Lemma startswith_spec s p : Py.startswith s p = true <-> exists r, s = p +:+ r.
Proof.
  revert s. induction p as [|c p IH]; intros s; simpl.
  - split; [intros _; by exists s | done].
  - destruct s as [|d s].
    + split; [done | intros [r Hr]; discriminate Hr].
    + destruct (decide (c = d)) as [->|Hne].
      * rewrite IH. split; intros [r Hr]; exists r.
        -- by rewrite app_cons, <- Hr.
        -- rewrite app_cons in Hr. by injection Hr.
      * split; [done | intros [r Hr]]. rewrite app_cons in Hr. congruence.
Qed.

Lemma occurs_here sub s : Py.startswith s sub = true -> occurs sub s.
Proof. intros [r ->]%startswith_spec. by exists "", r. Qed.

Lemma occurs_later sub c s : occurs sub s -> occurs sub (String c s).
Proof. intros (a & b & ->). by exists (String c a), b. Qed.

Lemma rfind_absent s sub : ~ occurs sub s -> Py.rfind s sub = -1.
Proof.
  induction s as [|c s IH]; intros Hno; simpl.
  - destruct (Py.startswith "" sub) eqn:E; [|done].
    destruct Hno. by apply occurs_here.
  - rewrite IH by eauto using occurs_later. simpl.
    destruct (Py.startswith (String c s) sub) eqn:E; [|done].
    destruct Hno. by apply occurs_here.
Qed.

Lemma rfind_zero s sub : Py.rfind s sub = 0 -> Py.startswith s sub = true.
Proof.
  destruct s as [|c s]; simpl.
  - by destruct (Py.startswith "" sub).
  - destruct (decide (0 <= Py.rfind s sub)); [lia|].
    by destruct (Py.startswith (String c s) sub).
Qed.

(** [rfind] finds whatever occurs. *)
Lemma rfind_present s sub : occurs sub s -> 0 <= Py.rfind s sub.
Proof.
  intros (a & b & ->). induction a as [|c a IH].
  - rewrite app_nil_l.
    assert (Py.startswith (sub +:+ b) sub = true) as E
      by (apply startswith_spec; eauto).
    destruct (sub +:+ b) as [|d r] eqn:Hs; simpl; [by rewrite E|].
    destruct (decide (0 <= Py.rfind r sub)); [lia|]. by rewrite E.
  - rewrite app_cons. simpl.
    destruct (decide (0 <= Py.rfind (a +:+ sub +:+ b) sub)); [lia|done].
Qed.

Lemma rfind_cons_absent c s sub :
  Py.rfind s sub = -1 -> Py.startswith (String c s) sub = false ->
  Py.rfind (String c s) sub = -1.
Proof. intros H E. cbn [Py.rfind]. by rewrite H, E. Qed.

Lemma rfind_cons_here c s sub :
  Py.rfind s sub = -1 -> Py.startswith (String c s) sub = true ->
  Py.rfind (String c s) sub = 0.
Proof. intros H E. cbn [Py.rfind]. by rewrite H, E. Qed.

Lemma rfind_cons_later c s sub :
  occurs sub s -> Py.rfind (String c s) sub <> 0.
Proof.
  intros H%rfind_present. cbn [Py.rfind].
  destruct (decide (0 <= Py.rfind s sub)); [lia | done].
Qed.

Lemma replace_go_absent old new count s :
  old <> "" -> ~ occurs old s -> Py.replace_go old new count 0 s = s.
Proof.
  intros Hold. induction s as [|c s IH]; intros Hno; simpl; [done|].
  destruct (Py.startswith (String c s) old) eqn:E.
  { destruct Hno. by apply occurs_here. }
  rewrite andb_false_r. f_equal. eauto using occurs_later.
Qed.

Lemma replace_go_exhausted old new s :
  Py.replace_go old new (Some 0%nat) 0 s = s.
Proof. induction s as [|c s IH]; simpl; [done|]. by rewrite IH. Qed.

Lemma replace_go_skip old new count a b :
  Py.replace_go old new count (String.length a) (a +:+ b)
  = Py.replace_go old new count 0 b.
Proof.
  induction a as [|c a IH]; [done|]. rewrite app_cons. simpl. apply IH.
Qed.

Lemma replace_go_here c old new count b :
  Py.exhausted count = false ->
  Py.replace_go (String c old) new count 0 (String c old +:+ b)
  = new +:+ Py.replace_go (String c old) new (Py.spend count) 0 b.
Proof.
  intros Hc. rewrite app_cons.
  assert (Py.startswith (String c (old +:+ b)) (String c old) = true) as E.
  { apply startswith_spec. by exists b. }
  cbn [Py.replace_go]. rewrite Hc, E. simpl negb. simpl andb. cbv iota.
  f_equal. apply replace_go_skip.
Qed.

Lemma replace_go_first old new a b :
  old <> "" -> first_occurrence old a b ->
  Py.replace_go old new (Some 1%nat) 0 (a +:+ old +:+ b) = a +:+ new +:+ b.
Proof.
  intros Hold. induction a as [|c a IH]; intros Hfirst.
  - rewrite !app_nil_l. destruct old as [|d old]; [done|].
    rewrite replace_go_here by done. simpl Py.spend.
    by rewrite replace_go_exhausted.
  - rewrite !app_cons. simpl.
    destruct (Py.startswith _ old) eqn:E.
    + apply startswith_spec in E as [r Hr].
      specialize (Hfirst "" r). rewrite app_nil_l, app_cons in Hfirst.
      specialize (Hfirst Hr). simpl in Hfirst. lia.
    + f_equal. apply IH. intros a' b' Heq.
      specialize (Hfirst (String c a') b'). rewrite !app_cons in Hfirst.
      simpl in Hfirst. rewrite Heq in Hfirst. specialize (Hfirst eq_refl). lia.
Qed.

End substrings.

(** ** The normalisers *)

Lemma nntp_rfind_single rest :
  ~ occurs "news.mozilla.org-" rest ->
  Py.rfind ("news.mozilla.org-" +:+ rest) "news.mozilla.org-" = 0.
Proof.
  intros Hno%rfind_absent.
  rewrite !app_cons, app_nil_l.
  apply rfind_cons_here; [|reflexivity].
  repeat (apply rfind_cons_absent; [|reflexivity]). exact Hno.
Qed.

Lemma nntp_replace_single rest :
  ~ occurs "news.mozilla.org-" rest ->
  Py.replace ("news.mozilla.org-" +:+ rest) "news.mozilla.org-" "news.mozilla.org " None
  = "news.mozilla.org " +:+ rest.
Proof.
  intros Hno. unfold Py.replace.
  rewrite replace_go_here by done. simpl Py.spend.
  by rewrite replace_go_absent.
Qed.

Lemma ghrepo_first a b :
  first_occurrence "https://" a b ->
  normalized_ghrepo (a +:+ "https://" +:+ b) = Py.lower (a +:+ "http://" +:+ b).
Proof.
  intros H. unfold normalized_ghrepo, Py.replace.
  by rewrite replace_go_first.
Qed.

Lemma ghrepo_absent s :
  ~ occurs "https://" s -> normalized_ghrepo s = Py.lower s.
Proof.
  intros H. unfold normalized_ghrepo, Py.replace.
  by rewrite replace_go_absent.
Qed.

(** ** The error monad *)

Lemma bind_Ok {A B} (m : Result A) (f : A -> Result B) b :
  m ≫= f = Ok b <-> exists a, m = Ok a /\ f a = Ok b.
Proof.
  destruct m as [a|e]; simpl.
  - split; [eauto | by intros (? & [= <-] & ?)].
  - split; [done | by intros (? & ? & ?)].
Qed.

Lemma raises_bind_l {A B} (m : Result A) (f : A -> Result B) :
  raises m -> raises (m ≫= f).
Proof. by destruct m. Qed.

Lemma foldlM_app {A B} (f : B -> A -> Result B) b l1 l2 :
  foldlM f b (l1 ++ l2) = foldlM f b l1 ≫= fun b' => foldlM f b' l2.
Proof.
  revert b. induction l1 as [|a l1 IH]; intros b; simpl; [done|].
  destruct (f b a); simpl; [apply IH | done].
Qed.

Lemma foldlM_raises {A B} (f : B -> A -> Result B) b l x :
  x ∈ l -> (forall b', raises (f b' x)) -> raises (foldlM f b l).
Proof.
  intros Hx Hf. revert b. induction Hx as [x l|x y l _ IH]; intros b; simpl.
  - by apply raises_bind_l.
  - destruct (f b y); simpl; [by apply IH | done].
Qed.

(** ** Sheet.get_repos: the last row of a repo decides its project *)

Section get_repos.

Variables (cls : SheetClass) (sheet : worksheet).

Lemma get_repos_from_Ok rows acc m :
  get_repos_from cls sheet rows acc = Ok m <->
  exists es, Forall2 (fun row e => row_entry cls sheet row = Ok e) rows es
             /\ m = foldl put acc es.
Proof.
  revert acc. induction rows as [|row rows IH]; intros acc; simpl.
  - split.
    + intros [= <-]. exists []. by split; [constructor|].
    + intros (es & ->%Forall2_nil_inv_l & ->). done.
  - rewrite bind_Ok. split.
    + intros (e & He & (es & Hes & ->)%IH). exists (e :: es). by split; [constructor|].
    + intros (es & (e & es' & He & Hes & ->)%Forall2_cons_inv_l & ->).
      exists e. split; [done|]. apply IH. by exists es'.
Qed.

Lemma get_repos_from_raises rows acc row :
  row ∈ rows -> raises (row_entry cls sheet row) ->
  raises (get_repos_from cls sheet rows acc).
Proof.
  intros Hrow Hr. revert acc.
  induction Hrow as [row rows|row row' rows _ IH]; intros acc; simpl.
  - by apply raises_bind_l.
  - destruct (row_entry cls sheet row'); simpl; [by apply IH | done].
Qed.

Lemma get_repos_from_total rows acc :
  (forall row, row ∈ rows -> exists e, row_entry cls sheet row = Ok e) ->
  exists m, get_repos_from cls sheet rows acc = Ok m.
Proof.
  revert acc. induction rows as [|row rows IH]; intros acc Hall; simpl; [eauto|].
  destruct (Hall row) as [e ->]; [left|]. simpl.
  apply IH. intros row' ?. apply Hall. by right.
Qed.

Lemma foldl_put_snoc acc es e :
  foldl put acc (es ++ [e]) = <[e.1 := e.2]> (foldl put acc es).
Proof. by rewrite foldl_app. Qed.

(** The entry of index [i] holds in the result if no later entry has
    its key. *)
Lemma foldl_put_last acc es i k v :
  es !! i = Some (k, v) ->
  (forall j e, (i < j)%nat -> es !! j = Some e -> e.1 <> k) ->
  foldl put acc es !! k = Some v.
Proof.
  revert i. induction es as [|e es IH] using rev_ind; intros i Hi Hlast; [done|].
  rewrite foldl_put_snoc.
  destruct (decide (i = length es)) as [->|Hne].
  - rewrite list_lookup_middle in Hi by done. injection Hi as ->.
    simpl. by rewrite lookup_insert_eq.
  - assert (i < length es)%nat as Hlt.
    { apply lookup_lt_Some in Hi. rewrite length_app in Hi. simpl in Hi. lia. }
    rewrite lookup_app_l in Hi by done.
    rewrite lookup_insert_ne.
    + apply (IH i); [done|]. intros j e' Hj He'. apply (Hlast j); [done|].
      by apply lookup_app_l_Some.
    + apply (Hlast (length es)); [done|]. by rewrite list_lookup_middle.
Qed.

(** Every binding of the result is the entry of some row, or was there
    before. *)
Lemma foldl_put_inv acc es k v :
  foldl put acc es !! k = Some v ->
  (k, v) ∈ es \/ acc !! k = Some v.
Proof.
  induction es as [|e es IH] using rev_ind; [by right|].
  rewrite foldl_put_snoc. destruct (decide (e.1 = k)) as [<-|Hne].
  - rewrite lookup_insert_eq. intros [= <-]. left.
    rewrite elem_of_app, list_elem_of_singleton. right. by destruct e.
  - rewrite lookup_insert_ne by done. intros [H|H]%IH; [left|by right].
    rewrite elem_of_app. by left.
Qed.

Lemma rows_lookup (i : nat) row :
  seq 1 (nrows sheet - 1) !! i = Some row <-> (row = 1 + i /\ 1 + i < nrows sheet)%nat.
Proof. rewrite lookup_seq. lia. Qed.

Lemma get_repos_Ok_rows m row :
  get_repos cls sheet = Ok m -> (1 <= row < nrows sheet)%nat ->
  exists e, row_entry cls sheet row = Ok e /\ is_Some (m !! e.1).
Proof.
  intros (es & Hes & ->)%get_repos_from_Ok Hrow.
  assert (seq 1 (nrows sheet - 1) !! (row - 1)%nat = Some row) as Hi
    by (apply rows_lookup; lia).
  destruct (Forall2_lookup_l _ _ _ _ _ Hes Hi) as (e & He & Hre).
  exists e. split; [done|].
  assert (forall acc, (e.1, e.2) ∈ es -> is_Some (foldl put acc es !! e.1)) as Hin.
  { clear. induction es as [|e' es IH] using rev_ind; intros acc.
    - by intros ?%elem_of_nil.
    - rewrite foldl_put_snoc, elem_of_app, list_elem_of_singleton.
      destruct (decide (e'.1 = e.1)) as [->|Hne].
      + rewrite lookup_insert_eq. eauto.
      + rewrite lookup_insert_ne by done. intros [H|H]; [by apply IH|].
        destruct e'. simpl in *. congruence. }
  apply Hin. destruct e. by eapply list_elem_of_lookup_2.
Qed.

Lemma get_repos_last m row repo project :
  get_repos cls sheet = Ok m -> (1 <= row < nrows sheet)%nat ->
  row_entry cls sheet row = Ok (repo, project) ->
  (forall row' e', (row < row' < nrows sheet)%nat ->
     row_entry cls sheet row' = Ok e' -> e'.1 <> repo) ->
  m !! repo = Some project.
Proof.
  intros (es & Hes & ->)%get_repos_from_Ok Hrow He Hlast.
  assert (seq 1 (nrows sheet - 1) !! (row - 1)%nat = Some row) as Hi
    by (apply rows_lookup; lia).
  destruct (Forall2_lookup_l _ _ _ _ _ Hes Hi) as (e & Hei & Hre).
  rewrite He in Hre. injection Hre as <-.
  apply (foldl_put_last _ _ (row - 1)); [done|].
  intros j e' Hj He'.
  destruct (Forall2_lookup_r _ _ _ _ _ Hes He') as (row' & [-> ?]%rows_lookup & Hr').
  apply (Hlast (1 + j)%nat); [lia | done].
Qed.

Lemma get_repos_inv m repo project :
  get_repos cls sheet = Ok m -> m !! repo = Some project ->
  exists row, (1 <= row < nrows sheet)%nat /\
              row_entry cls sheet row = Ok (repo, project).
Proof.
  intros (es & Hes & ->)%get_repos_from_Ok [Hin|Hin]%foldl_put_inv; [|done].
  apply list_elem_of_lookup in Hin as [i Hi].
  destruct (Forall2_lookup_r _ _ _ _ _ Hes Hi) as (row & [-> ?]%rows_lookup & Hr).
  exists (1 + i)%nat. split; [lia | done].
Qed.

Lemma get_repos_total :
  (forall row, (1 <= row < nrows sheet)%nat ->
     exists e, row_entry cls sheet row = Ok e) ->
  exists m, get_repos cls sheet = Ok m.
Proof.
  intros Hall. apply get_repos_from_total.
  intros row [? ?]%elem_of_seq. apply Hall. lia.
Qed.

Lemma get_repos_raises row :
  (1 <= row < nrows sheet)%nat -> raises (row_entry cls sheet row) ->
  raises (get_repos cls sheet).
Proof.
  intros Hrow. apply get_repos_from_raises. apply elem_of_seq. lia.
Qed.

End get_repos.

(** ** Reading the sheets *)

Lemma length_app (a b : string) :
  String.length (a +:+ b) = (String.length a + String.length b)%nat.
Proof. induction a as [|c a IH]; [done|]. rewrite app_cons. simpl. by rewrite IH. Qed.

#[global] Instance app_inj_r (c : string) : Inj (=) (=) (fun a => a +:+ c).
Proof.
  intros a. induction a as [|x a IH]; intros [|y b] H.
  - done.
  - apply (f_equal String.length) in H. rewrite app_nil_l, length_app in H.
    simpl in H. lia.
  - apply (f_equal String.length) in H. rewrite app_nil_l, length_app in H.
    simpl in H. lia.
  - rewrite !app_cons in H. injection H as -> H. f_equal. by apply IH.
Qed.

Lemma foldl_insert_list_to_map {A} (f : string -> string) (l : list (string * A)) :
  foldl (fun acc e => <[f e.1 := e.2]> acc) (∅ : gmap string A) l
  = list_to_map (prod_map f id <$> reverse l).
Proof.
  induction l as [|e l IH] using rev_ind; [done|].
  rewrite foldl_app, reverse_snoc. simpl. by rewrite IH.
Qed.

Lemma fst_prod_map {A} (f : string -> string) (l : list (string * A)) :
  (prod_map f id <$> l).*1 = f <$> l.*1.
Proof. induction l as [|[k v] l IH]; [done|]. rewrite !fmap_cons. simpl. by f_equal. Qed.

(** The [git] entries are the [github] entries under new keys, in
    whatever order the loop meets them. *)
Lemma derive_git_kmap o github :
  derive_git o github = kmap (fun repo => repo +:+ ".git") github.
Proof.
  unfold derive_git, kmap.
  etrans; [apply (foldl_insert_list_to_map (fun repo => repo +:+ ".git"))|].
  apply list_to_map_proper.
  - rewrite fst_prod_map. apply NoDup_fmap_2; [apply _|].
    rewrite reverse_Permutation, dict_items_perm. apply NoDup_fst_map_to_list.
  - by rewrite reverse_Permutation, dict_items_perm.
Qed.

Lemma read_sheet_spec o spreadsheet sheet :
  read_sheet o spreadsheet sheet =
  match sheet_kind (name sheet) with
  | None => Ok spreadsheet
  | Some (kind, cls) =>
      repos ← get_repos cls sheet;
      Ok (if decide (kind = "github")
          then <["git" := derive_git o repos]> (<[kind := repos]> spreadsheet)
          else <[kind := repos]> spreadsheet)
  end.
Proof.
  unfold read_sheet, sheet_kind.
  repeat case_decide; try done; by destruct (get_repos _ sheet).
Qed.

Lemma sheet_kind_cases n kind cls :
  sheet_kind n = Some (kind, cls) ->
  (n, kind, cls) ∈
    [ ("Github", "github", GitHubSheet); ("Bugzilla", "bugzilla", BugzillaSheet);
      ("Mailing lists", "nntp", EmailSheet); ("Discourse", "discourse", DiscourseSheet);
      ("StackOverflow", "stackexchange", StackOverflow); ("Meetup", "meetup", Meetup);
      ("IRC", "supybot", IRC) ].
Proof.
  unfold sheet_kind. repeat case_decide; intros [= <- <-]; subst n;
    rewrite !elem_of_cons; tauto.
Qed.

Lemma sheet_kind_inj n n' kind cls cls' :
  sheet_kind n = Some (kind, cls) -> sheet_kind n' = Some (kind, cls') -> n = n'.
Proof.
  intros H%sheet_kind_cases H'%sheet_kind_cases.
  rewrite !elem_of_cons, elem_of_nil in H, H'.
  destruct H as [H|[H|[H|[H|[H|[H|[H|[]]]]]]]]; injection H as -> -> _;
  destruct H' as [H'|[H'|[H'|[H'|[H'|[H'|[H'|[]]]]]]]]; by injection H' as ->.
Qed.

Lemma sheet_kind_not_git n kind cls :
  sheet_kind n = Some (kind, cls) -> kind <> "git" /\ kind ∈ kinds.
Proof.
  intros H%sheet_kind_cases. rewrite !elem_of_cons, elem_of_nil in H.
  unfold kinds.
  destruct H as [H|[H|[H|[H|[H|[H|[H|[]]]]]]]]; injection H as -> -> _;
    (split; [done | rewrite !elem_of_cons; tauto]).
Qed.

Lemma last_named_snoc n wb sheet :
  last_named n (wb ++ [sheet]) =
  if decide (name sheet = n) then Some sheet else last_named n wb.
Proof.
  unfold last_named. rewrite filter_app, filter_cons, filter_nil.
  case_decide; [by rewrite last_snoc | by rewrite app_nil_r].
Qed.

Lemma last_named_elem n wb sheet :
  last_named n wb = Some sheet -> sheet ∈ wb /\ name sheet = n.
Proof.
  unfold last_named. intros H%last_Some_elem_of.
  by apply list_elem_of_filter in H as [? ?].
Qed.

Lemma bind_Ok_r {A} (m : Result A) : m ≫= Ok = m.
Proof. by destruct m. Qed.

Lemma elem_of_dict_items {A} (o : IterOrder) (m : gmap string A) k v :
  (k, v) ∈ dict_items o m <-> m !! k = Some v.
Proof. by rewrite dict_items_perm, elem_of_map_to_list. Qed.

Lemma NoDup_dict_items {A} (o : IterOrder) (m : gmap string A) :
  NoDup (dict_items o m).*1.
Proof. rewrite dict_items_perm. apply NoDup_fst_map_to_list. Qed.

Lemma read_sheets_snoc o wb sheet :
  read_sheets o (wb ++ [sheet]) =
  read_sheets o wb ≫= fun spreadsheet => read_sheet o spreadsheet sheet.
Proof.
  unfold read_sheets. rewrite foldlM_app. destruct (foldlM _ _ wb); simpl; [|done].
  apply bind_Ok_r.
Qed.

Lemma read_sheets_spec o wb spreadsheet :
  read_sheets o wb = Ok spreadsheet -> sheets_read o wb spreadsheet.
Proof.
  revert spreadsheet. induction wb as [|sheet wb IH] using rev_ind; intros sp.
  { intros [= <-]. split_and!.
    - intros n kind cls _ repos. rewrite lookup_empty. split; [done|].
      by intros (? & ? & _).
    - by rewrite !lookup_empty.
    - intros k. rewrite lookup_empty. by intros [? ?]. }
  rewrite read_sheets_snoc, bind_Ok. intros (sp0 & Hsp0 & Hstep).
  destruct (IH _ Hsp0) as (Ha & Hb & Hc). clear IH Hsp0.
  rewrite read_sheet_spec in Hstep.
  destruct (sheet_kind (name sheet)) as [[kind0 cls0]|] eqn:Hkind.
  - apply bind_Ok in Hstep as (m0 & Hm0 & [= <-]).
    destruct (sheet_kind_not_git _ _ _ Hkind) as [Hgit0 Hin0].
    assert (forall k, k <> kind0 -> k <> "git" ->
              (if decide (kind0 = "github")
               then <["git" := derive_git o m0]> (<[kind0 := m0]> sp0)
               else <[kind0 := m0]> sp0) !! k = sp0 !! k) as Hother.
    { intros k ? ?. case_decide; by rewrite ?lookup_insert_ne by done. }
    assert ((if decide (kind0 = "github")
             then <["git" := derive_git o m0]> (<[kind0 := m0]> sp0)
             else <[kind0 := m0]> sp0) !! kind0 = Some m0) as Hsame.
    { case_decide; rewrite ?(lookup_insert_ne _ "git") by done;
        by rewrite lookup_insert_eq. }
    split_and!.
    + intros n kind cls Hn repos. rewrite last_named_snoc.
      destruct (sheet_kind_not_git _ _ _ Hn) as [Hgit _].
      destruct (decide (name sheet = n)) as [<-|Hne].
      * rewrite Hkind in Hn. injection Hn as <- <-. rewrite Hsame.
        split; [intros [= <-]; eauto | intros (? & [= <-] & H)].
        rewrite Hm0 in H. by injection H as <-.
      * rewrite Hother; [by apply Ha | | done].
        intros ->. apply Hne. by eapply sheet_kind_inj.
    + destruct (decide (kind0 = "github")) as [->|Hgh].
      * by rewrite lookup_insert_eq, lookup_insert_ne, lookup_insert_eq.
      * by rewrite !lookup_insert_ne by done.
    + intros k Hk. destruct (decide (k = kind0)) as [->|?]; [done|].
      destruct (decide (k = "git")) as [->|?].
      { unfold kinds. rewrite !elem_of_cons. tauto. }
      rewrite Hother in Hk by done. by apply Hc.
  - injection Hstep as <-. split_and!; [|done..].
    intros n kind cls Hn repos. rewrite last_named_snoc.
    case_decide as Hname; [congruence | by apply Ha].
Qed.

Lemma read_sheets_raises o wb sheet kind cls :
  sheet ∈ wb -> sheet_kind (name sheet) = Some (kind, cls) ->
  raises (get_repos cls sheet) -> raises (read_sheets o wb).
Proof.
  intros Hin Hkind Hr. eapply foldlM_raises; [done|].
  intros sp. rewrite read_sheet_spec, Hkind. by apply raises_bind_l.
Qed.


(** ** Grouping by project *)

Lemma lookup_total_None {A} `{!Inhabited A} (m : gmap string A) k :
  m !! k = None -> m !!! k = inhabitant.
Proof. intros H. by rewrite lookup_total_alt, H. Qed.

Lemma lookup_total_Some {A} `{!Inhabited A} (m : gmap string A) k v :
  m !! k = Some v -> m !!! k = v.
Proof. intros H. by rewrite lookup_total_alt, H. Qed.

Lemma add_repo_eq ds r P t :
  add_repo ds r P t = <[P := <[ds := {[r]} ∪ (t !!! P) !!! ds]> (t !!! P)]> t.
Proof.
  unfold add_repo. cbv zeta.
  destruct (decide (is_Some (t !! P))) as [HP|HP].
  - destruct (decide (is_Some ((t !!! P) !! ds))) as [Hds|Hds]; [done|].
    rewrite lookup_total_insert_eq, insert_insert_eq.
    apply eq_None_not_Some in Hds. by rewrite (lookup_total_None _ _ Hds).
  - rewrite lookup_total_insert_eq. apply eq_None_not_Some in HP.
    rewrite (lookup_total_None _ _ HP). rewrite decide_False; last first.
    { change (inhabitant : gmap string (gset string)) with (∅ : gmap string (gset string)).
      rewrite lookup_empty. by intros [? ?]. }
    by rewrite lookup_total_insert_eq, !insert_insert_eq.
Qed.

Lemma elem_of_lookup_total t P ds r :
  r ∈ (t !!! P) !!! ds <-> holds t P ds r.
Proof.
  unfold holds. split.
  - intros Hr. destruct (t !! P) as [d|] eqn:HP.
    + rewrite (lookup_total_Some _ _ _ HP) in Hr.
      destruct (d !! ds) as [s|] eqn:Hds.
      * rewrite (lookup_total_Some _ _ _ Hds) in Hr. eauto.
      * rewrite (lookup_total_None _ _ Hds) in Hr. by apply not_elem_of_empty in Hr.
    + rewrite (lookup_total_None _ _ HP) in Hr.
      change (r ∈ (∅ : gmap string (gset string)) !!! ds) in Hr.
      rewrite lookup_total_empty in Hr. by apply not_elem_of_empty in Hr.
  - intros (d & s & HP & Hds & Hr).
    by rewrite (lookup_total_Some _ _ _ HP), (lookup_total_Some _ _ _ Hds).
Qed.

Lemma holds_add ds r P t P' ds' r' :
  holds (add_repo ds r P t) P' ds' r' <->
  holds t P' ds' r' \/ (P' = P /\ ds' = ds /\ r' = r).
Proof.
  rewrite <- !elem_of_lookup_total, add_repo_eq.
  destruct (decide (P' = P)) as [->|HP].
  - rewrite lookup_total_insert_eq.
    destruct (decide (ds' = ds)) as [->|Hds].
    + rewrite lookup_total_insert_eq. set_solver.
    + rewrite lookup_total_insert_ne by done. naive_solver.
  - rewrite lookup_total_insert_ne by done. naive_solver.
Qed.

Lemma populated_empty : populated ∅.
Proof. split; intros P d; by rewrite lookup_empty. Qed.

Lemma populated_add ds r P t : populated t -> populated (add_repo ds r P t).
Proof.
  intros [H1 H2]. rewrite add_repo_eq. split.
  - intros P' d. destruct (decide (P' = P)) as [->|HP].
    + rewrite lookup_insert_eq. intros [= <-]. apply insert_non_empty.
    + rewrite lookup_insert_ne by done. apply H1.
  - intros P' d ds' s. destruct (decide (P' = P)) as [->|HP].
    + rewrite lookup_insert_eq. intros [= <-].
      destruct (decide (ds' = ds)) as [->|Hds].
      * rewrite lookup_insert_eq. intros [= <-]. set_solver.
      * rewrite lookup_insert_ne by done. intros Hs.
        destruct (t !! P) as [d|] eqn:Ht.
        -- rewrite (lookup_total_Some _ _ _ Ht) in Hs. by eapply H2.
        -- rewrite (lookup_total_None _ _ Ht) in Hs.
           change (inhabitant : gmap string (gset string))
             with (∅ : gmap string (gset string)) in Hs.
           by rewrite lookup_empty in Hs.
    + rewrite lookup_insert_ne by done. apply H2.
Qed.

Lemma populated_project t P d :
  populated t -> t !! P = Some d -> exists ds r, holds t P ds r.
Proof.
  intros [H1 H2] Ht. destruct (map_choose d) as (ds & s & Hs); [by eapply H1|].
  destruct (set_choose_L s) as [r Hr]; [by eapply H2|].
  exists ds, r, d, s. done.
Qed.

Lemma populated_source t P d ds s :
  populated t -> t !! P = Some d -> d !! ds = Some s -> exists r, holds t P ds r.
Proof.
  intros [H1 H2] Ht Hs. destruct (set_choose_L s) as [r Hr]; [by eapply H2|].
  exists r, d, s. done.
Qed.


Section aggregate.

Variable o : IterOrder.

Lemma holds_inner k l t P ds r :
  holds (foldl (fun projects e => add_repo k e.1 e.2 projects) t l) P ds r <->
  holds t P ds r \/ (ds = k /\ (r, P) ∈ l).
Proof.
  revert t. induction l as [|[r0 P0] l IH]; intros t; simpl.
  - rewrite elem_of_nil. tauto.
  - rewrite IH, holds_add, elem_of_cons. simpl. naive_solver.
Qed.

Lemma populated_inner k l t :
  populated t -> populated (foldl (fun projects e => add_repo k e.1 e.2 projects) t l).
Proof.
  revert t. induction l as [|e l IH]; intros t Ht; simpl; [done|].
  by apply IH, populated_add.
Qed.

Lemma holds_outer (L : list (string * gmap string string)) t P ds r :
  holds (foldl (fun projects ds =>
                  foldl (fun projects e => add_repo ds.1 e.1 e.2 projects)
                        projects (dict_items o ds.2)) t L) P ds r <->
  holds t P ds r \/ exists m, (ds, m) ∈ L /\ m !! r = Some P.
Proof.
  revert t. induction L as [|[k m0] L IH]; intros t; simpl.
  - split; [auto | intros [?|(? & ?%elem_of_nil & _)]; done].
  - rewrite IH, holds_inner, elem_of_dict_items. split.
    + intros [[?|[-> ?]]|(m & ? & ?)]; [by left | right..].
      * exists m0. split; [left | done].
      * exists m. split; [by right | done].
    + intros [?|(m & [[= -> ->]|?]%elem_of_cons & ?)]; [by left; left | |].
      * left. by right.
      * right. by exists m.
Qed.

Lemma populated_outer (L : list (string * gmap string string)) t :
  populated t ->
  populated (foldl (fun projects ds =>
                  foldl (fun projects e => add_repo ds.1 e.1 e.2 projects)
                        projects (dict_items o ds.2)) t L).
Proof.
  revert t. induction L as [|e L IH]; intros t Ht; simpl; [done|].
  by apply IH, populated_inner.
Qed.

(** The tree of sets holds exactly what the sheets file. *)
Lemma aggregate_holds spreadsheet P ds r :
  holds (aggregate o spreadsheet) P ds r <-> files spreadsheet ds r P.
Proof.
  unfold aggregate, files. rewrite holds_outer. split.
  - intros [(? & ? & ?%lookup_empty_Some & _)|(m & Hm%elem_of_dict_items & ?)]; [done|].
    by exists m.
  - intros (m & Hm & ?). right. exists m. by rewrite elem_of_dict_items.
Qed.

Lemma aggregate_populated spreadsheet : populated (aggregate o spreadsheet).
Proof. apply populated_outer, populated_empty. Qed.

End aggregate.


(** ** Sorting and meta *)

(** A loop that overwrites, in any order, the value of every key of a
    dictionary leaves the dictionary with every value rewritten. *)
Lemma foldl_update_lookup {A} `{!Inhabited A} (f : string -> A -> A)
    (l : list (string * A)) (acc : gmap string A) k :
  NoDup l.*1 -> (forall k', k' ∈ l.*1 -> is_Some (acc !! k')) ->
  foldl (fun acc e => <[e.1 := f e.1 (acc !!! e.1)]> acc) acc l !! k
  = if decide (k ∈ l.*1) then f k <$> acc !! k else acc !! k.
Proof.
  revert acc. induction l as [|[k0 v0] l IH]; intros acc Hnd Hin.
  { rewrite decide_False; [done|]. rewrite fmap_nil. apply not_elem_of_nil. }
  rewrite fmap_cons in Hnd, Hin |- *. simpl in Hnd, Hin |- *.
  apply NoDup_cons in Hnd as [Hk0 Hnd].
  rewrite IH; [|done|]; last first.
  { intros k' Hk'. destruct (decide (k' = k0)) as [->|?].
    - rewrite lookup_insert_eq. eauto.
    - rewrite lookup_insert_ne by done. apply Hin. by right. }
  destruct (Hin k0) as [x0 Hx0]; [by left|].
  destruct (decide (k ∈ l.*1)) as [Hkl|Hkl].
  - rewrite decide_True by (by right).
    rewrite lookup_insert_ne; [done|]. by intros ->.
  - destruct (decide (k = k0)) as [->|Hne].
    + rewrite decide_True by (by left).
      by rewrite lookup_insert_eq, (lookup_total_Some _ _ _ Hx0), Hx0.
    + rewrite decide_False by (by intros [?|?]%elem_of_cons).
      by rewrite lookup_insert_ne.
Qed.

Lemma foldl_update_items {A} `{!Inhabited A} (o : IterOrder)
    (f : string -> A -> A) (m : gmap string A) k :
  foldl (fun acc e => <[e.1 := f e.1 (acc !!! e.1)]> acc) m (dict_items o m) !! k
  = f k <$> m !! k.
Proof.
  assert (forall k', k' ∈ (dict_items o m).*1 <-> is_Some (m !! k')) as Hkeys.
  { intros k'. rewrite list_elem_of_fmap. split.
    - intros ([k'' v] & -> & Hv%elem_of_dict_items). eauto.
    - intros [v Hv]. exists (k', v). by rewrite elem_of_dict_items. }
  rewrite foldl_update_lookup; [|apply NoDup_dict_items|by intros ? ?%Hkeys].
  case_decide as Hk; [done|].
  rewrite Hkeys in Hk. apply eq_None_not_Some in Hk. by rewrite Hk.
Qed.

Lemma finalize_project_lookup o P (sources : gmap string value) k :
  finalize_project o P sources !! k =
  if decide (k = "meta")
  then Some (from_option (sorted o) (VStr (Py.lower P)) (sources !! "meta"))
  else sorted o <$> sources !! k.
Proof.
  unfold finalize_project. cbv zeta.
  pose proof (foldl_update_items o (fun _ v => sorted o v) sources) as Hfold.
  simpl in Hfold.
  destruct (decide (is_Some (_ !! "meta"))) as [Hm|Hm].
  - rewrite Hfold in Hm |- *. destruct Hm as [v Hv].
    case_decide as Hk; [subst k|done].
    destruct (sources !! "meta"); simplify_eq/=. done.
  - rewrite Hfold in Hm. apply eq_None_not_Some in Hm.
    destruct (decide (k = "meta")) as [->|Hk].
    + rewrite lookup_insert_eq. by destruct (sources !! "meta").
    + by rewrite lookup_insert_ne, Hfold.
Qed.

Lemma finalize_lookup o (projects : gmap string (gmap string value)) P :
  finalize o projects !! P = finalize_project o P <$> projects !! P.
Proof. apply (foldl_update_items o (finalize_project o)). Qed.

Lemma string_sort_unique (l1 l2 : list string) :
  l1 ≡ₚ l2 -> merge_sort String.le l1 = merge_sort String.le l2.
Proof.
  intros H. apply (Sorted_unique String.le).
  - apply Sorted_merge_sort; apply _.
  - apply Sorted_merge_sort; apply _.
  - by rewrite !merge_sort_Permutation.
Qed.



(** ** The adhoc entries *)

Lemma set_key_get P k v tree P' k' :
  tree_get (set_key P k v tree) P' k' =
  if decide (P' = P /\ k' = k) then Some v
  else if decide (P' = P) then (tree !!! P) !! k' else tree_get tree P' k'.
Proof.
  unfold set_key, tree_get. destruct (decide (P' = P)) as [->|HP].
  - rewrite lookup_insert_eq. destruct (decide (k' = k)) as [->|Hk].
    + rewrite decide_True by done. apply lookup_insert_eq.
    + rewrite decide_False by tauto. by apply lookup_insert_ne.
  - rewrite decide_False by tauto. by rewrite lookup_insert_ne.
Qed.

Lemma set_key_is_Some P k v tree P' :
  is_Some (tree !! P') -> is_Some (set_key P k v tree !! P').
Proof.
  unfold set_key. destruct (decide (P' = P)) as [->|HP].
  - rewrite lookup_insert_eq. eauto.
  - by rewrite lookup_insert_ne.
Qed.


Lemma set_key_get_same P k v tree k' :
  is_Some (tree !! P) ->
  tree_get (set_key P k v tree) P k' =
  if decide (k' = k) then Some v else tree_get tree P k'.
Proof.
  intros [d Hd]. rewrite set_key_get, (lookup_total_Some _ _ _ Hd).
  unfold tree_get. rewrite Hd.
  destruct (decide (k' = k)) as [->|Hk].
  - by rewrite decide_True.
  - rewrite decide_False by tauto. by rewrite decide_True.
Qed.

Lemma set_key_get_other P k v tree P' k' :
  P' <> P -> tree_get (set_key P k v tree) P' k' = tree_get tree P' k'.
Proof.
  intros HP. rewrite set_key_get. rewrite decide_False by tauto.
  by rewrite decide_False.
Qed.

Lemma init_unknown_is_Some tree : is_Some (__init_unknown_project tree !! "unknown").
Proof.
  unfold __init_unknown_project. case_decide; [done|].
  rewrite lookup_insert_eq. eauto.
Qed.

Lemma init_unknown_get tree P k :
  tree_get (__init_unknown_project tree) P k = tree_get tree P k.
Proof.
  unfold __init_unknown_project. case_decide as Hu; [done|].
  unfold tree_get. destruct (decide (P = "unknown")) as [->|HP].
  - rewrite lookup_insert_eq. apply eq_None_not_Some in Hu. by rewrite Hu.
  - by rewrite lookup_insert_ne.
Qed.

(** What [add_adhoc_repositories] leaves under every key of every
    project. *)
Lemma add_adhoc_get tree spreadsheet P k :
  tree_get (add_adhoc_repositories tree spreadsheet) P k =
  if decide (P = "unknown") then
    match adhoc_url k with
    | Some u => Some (VList [u])
    | None => tree_get tree P k
    end
  else tree_get tree P k.
Proof.
  unfold add_adhoc_repositories. cbv zeta.
  pose proof (init_unknown_is_Some tree) as H0.
  destruct (decide (P = "unknown")) as [->|HP].
  - rewrite !set_key_get_same by (repeat apply set_key_is_Some; exact H0).
    rewrite init_unknown_get. unfold adhoc_url.
    repeat case_decide; try done; congruence.
  - rewrite !set_key_get_other by done. apply init_unknown_get.
Qed.

Lemma add_adhoc_unknown tree spreadsheet :
  is_Some (add_adhoc_repositories tree spreadsheet !! "unknown").
Proof.
  unfold add_adhoc_repositories. cbv zeta.
  repeat apply set_key_is_Some. apply init_unknown_is_Some.
Qed.

Lemma add_adhoc_other tree spreadsheet P :
  P <> "unknown" -> add_adhoc_repositories tree spreadsheet !! P = tree !! P.
Proof.
  intros HP. unfold add_adhoc_repositories, set_key, __init_unknown_project. cbv zeta.
  rewrite !lookup_insert_ne by done.
  case_decide; [done | by rewrite lookup_insert_ne].
Qed.

(** ** The tree that is written *)

Lemma main_tree_inv o wb tree :
  main_tree o wb = Ok tree <->
  exists spreadsheet,
    read_sheets o wb = Ok spreadsheet /\
    tree = add_adhoc_repositories
             (finalize o (as_values (aggregate o spreadsheet))) spreadsheet.
Proof.
  unfold main_tree. rewrite bind_Ok. split.
  - intros (sp & Hsp & [= <-]). eauto.
  - intros (sp & Hsp & ->). eauto.
Qed.

Lemma aggregate_kinds o spreadsheet P sources k :
  (forall k, is_Some (spreadsheet !! k) -> k ∈ kinds) ->
  aggregate o spreadsheet !! P = Some sources ->
  is_Some (sources !! k) -> k ∈ kinds.
Proof.
  intros Hkinds HP [s Hs].
  destruct (populated_source _ _ _ _ _ (aggregate_populated o spreadsheet) HP Hs)
    as (r & (m & Hm & _)%aggregate_holds).
  apply Hkinds. eauto.
Qed.

Lemma meta_not_kind : "meta" ∉ kinds.
Proof. unfold kinds. rewrite !not_elem_of_cons. split_and!; try done. apply not_elem_of_nil. Qed.

Lemma finalized_get o spreadsheet P k :
  (forall k, is_Some (spreadsheet !! k) -> k ∈ kinds) ->
  tree_get (finalize o (as_values (aggregate o spreadsheet))) P k =
  match aggregate o spreadsheet !! P with
  | None => None
  | Some sources =>
      if decide (k = "meta") then Some (VStr (Py.lower P))
      else sorted_list o <$> sources !! k
  end.
Proof.
  intros Hkinds. unfold tree_get, as_values.
  rewrite finalize_lookup, lookup_fmap.
  destruct (aggregate o spreadsheet !! P) as [d|] eqn:HP; [|done]. simpl.
  rewrite finalize_project_lookup, !lookup_fmap.
  assert (d !! "meta" = None) as ->.
  { apply eq_None_not_Some. intros Hm. apply meta_not_kind.
    by eapply aggregate_kinds. }
  case_decide; [done|]. by destruct (d !! k).
Qed.

(** ** The writer *)

#[global] Instance key_le_trans {A} : Transitive (@Json.key_le A).
Proof. intros x y z. unfold Json.key_le. apply transitivity. Qed.

#[global] Instance key_le_total {A} : Total (@Json.key_le A).
Proof. intros x y. unfold Json.key_le. apply total, _. Qed.










(** ** Any order of iteration gives the same run *)



(** ** What the tree holds *)

Section final_tree.

Variables (o : IterOrder) (wb : list worksheet).
Variables (spreadsheet : gmap string (gmap string string)).
Variables (tree : gmap string (gmap string value)).
Hypothesis Hread : read_sheets o wb = Ok spreadsheet.
Hypothesis Hmain : main_tree o wb = Ok tree.

Lemma final_tree_eq :
  tree = add_adhoc_repositories
           (finalize o (as_values (aggregate o spreadsheet))) spreadsheet.
Proof.
  apply main_tree_inv in Hmain as (sp & Hsp & ->).
  rewrite Hread in Hsp. by injection Hsp as <-.
Qed.

Lemma spreadsheet_kinds k : is_Some (spreadsheet !! k) -> k ∈ kinds.
Proof. by apply (read_sheets_spec _ _ _ Hread). Qed.

(** Every key of every project of the tree that is written. *)
Lemma final_get P k :
  tree_get tree P k =
  let workbook :=
    match aggregate o spreadsheet !! P with
    | None => None
    | Some sources =>
        if decide (k = "meta") then Some (VStr (Py.lower P))
        else sorted_list o <$> sources !! k
    end in
  if decide (P = "unknown") then
    match adhoc_url k with
    | Some u => Some (VList [u])
    | None => workbook
    end
  else workbook.
Proof.
  rewrite final_tree_eq, add_adhoc_get, finalized_get; [done|].
  apply spreadsheet_kinds.
Qed.

Lemma project_of_workbook P :
  is_Some (aggregate o spreadsheet !! P) <-> exists ds r, files spreadsheet ds r P.
Proof.
  split.
  - intros [d Hd].
    destruct (populated_project _ _ _ (aggregate_populated o spreadsheet) Hd)
      as (ds & r & H%aggregate_holds). eauto.
  - intros (ds & r & (d & s & Hd & _)%(aggregate_holds o)). eauto.
Qed.

Lemma final_project P :
  is_Some (tree !! P) <-> P = "unknown" \/ exists ds r, files spreadsheet ds r P.
Proof.
  rewrite <- project_of_workbook, final_tree_eq.
  destruct (decide (P = "unknown")) as [->|HP].
  - split; [by left | intros _; apply add_adhoc_unknown].
  - rewrite add_adhoc_other by done. unfold as_values.
    rewrite finalize_lookup, lookup_fmap, !fmap_is_Some. tauto.
Qed.

(** The repos the sheets file are in the list of their project and
    data source, unless the adhoc entry of [unknown] took its place. *)
Lemma final_list P ds r :
  ~ (P = "unknown" /\ ds = "discourse") ->
  files spreadsheet ds r P <->
  exists l, tree_get tree P ds = Some (VList l) /\ r ∈ l /\ ds ∈ kinds.
Proof.
  intros Hnot. rewrite final_get. cbv zeta.
  assert (ds ∈ kinds -> ds <> "meta") as Hmeta.
  { intros ? ->. by apply meta_not_kind. }
  assert (ds ∈ kinds -> ds <> "discourse" -> adhoc_url ds = None) as Hurl.
  { unfold kinds, adhoc_url. rewrite !elem_of_cons, elem_of_nil.
    intros [->|[->|[->|[->|[->|[->|[->|[->|[]]]]]]]]] ?; done. }
  assert (forall l, (match aggregate o spreadsheet !! P with
            | None => None
            | Some sources =>
                if decide (ds = "meta") then Some (VStr (Py.lower P))
                else sorted_list o <$> sources !! ds
            end = Some (VList l) /\ r ∈ l /\ ds ∈ kinds) <->
            (exists sources s, aggregate o spreadsheet !! P = Some sources /\
              sources !! ds = Some s /\ l = merge_sort String.le (set_items o s) /\
              r ∈ s /\ ds ∈ kinds)) as Hbase.
  { intros l. destruct (aggregate o spreadsheet !! P) as [d|]; [|naive_solver].
    split.
    - intros (Hv & Hr & Hk). rewrite decide_False in Hv by auto.
      destruct (d !! ds) as [s|] eqn:Hs; [|done]. injection Hv as <-.
      rewrite merge_sort_Permutation, set_items_perm, elem_of_elements in Hr.
      exists d, s. by split_and!.
    - intros (? & s & [= <-] & Hs & -> & Hr & Hk). rewrite decide_False by auto.
      rewrite Hs. split; [done|].
      by rewrite merge_sort_Permutation, set_items_perm, elem_of_elements. }
  assert (files spreadsheet ds r P <->
          exists sources s, aggregate o spreadsheet !! P = Some sources /\
              sources !! ds = Some s /\ r ∈ s /\ ds ∈ kinds) as Hfiles.
  { rewrite <- (aggregate_holds o). unfold holds. split.
    - intros (d & s & Hd & Hs & Hr). exists d, s. split_and!; try done.
      eapply aggregate_kinds; [apply spreadsheet_kinds | done | eauto].
    - naive_solver. }
  rewrite Hfiles.
  destruct (decide (P = "unknown")) as [->|HP].
  - destruct (decide (ds ∈ kinds)) as [Hk|Hk]; [|naive_solver].
    rewrite Hurl; [|done|naive_solver].
    setoid_rewrite Hbase. naive_solver.
  - setoid_rewrite Hbase. naive_solver.
Qed.

End final_tree.

(** ** The sample workbooks are read *)

Lemma tree_ex_built : main_tree canonical_order wb_ex = Ok tree_ex.
Proof. vm_cast_no_check (eq_refl (Ok tree_ex)). Qed.

Lemma tree_twice_built : main_tree canonical_order wb_twice = Ok tree_twice.
Proof. vm_cast_no_check (eq_refl (Ok tree_twice)). Qed.

Lemma tree_blank_built : main_tree canonical_order wb_blank = Ok tree_blank.
Proof. vm_cast_no_check (eq_refl (Ok tree_blank)). Qed.

Lemma tree_empty_built : main_tree canonical_order [] = Ok tree_empty.
Proof. vm_cast_no_check (eq_refl (Ok tree_empty)). Qed.

(** * The claims *)

(** ** Mailing lists *)

Lemma absent_by_rfind sub s : Py.rfind s sub = -1 -> ~ occurs sub s.
Proof. intros H Hocc%rfind_present. lia. Qed.

Lemma email_normalize_unfold s :
  _normalize_repo EmailSheet s =
  if decide (Py.rfind s "news.mozilla.org-" = 0)
  then Ok (Py.replace s "news.mozilla.org-" "news.mozilla.org " None)
  else Ok s.
Proof. reflexivity. Qed.

(** C2, as the code has it.  A mailing-list identifier that starts with
    [news.mozilla.org-] and holds that prefix nowhere else has the hyphen
    of the prefix turned into a space; the rest of the identifier is left
    as it was.  An identifier that does not start with the prefix is
    returned unchanged. *)
Theorem nntp_normalize_single_prefix :
  (forall rest, ~ occurs "news.mozilla.org-" rest ->
     _normalize_repo EmailSheet ("news.mozilla.org-" +:+ rest)
     = Ok ("news.mozilla.org " +:+ rest)) /\
  (forall s, Py.startswith s "news.mozilla.org-" = false ->
     _normalize_repo EmailSheet s = Ok s).
Proof.
  split.
  - intros rest Hno. rewrite email_normalize_unfold.
    rewrite nntp_rfind_single by done. rewrite decide_True by done.
    by rewrite nntp_replace_single.
  - intros s Hs. rewrite email_normalize_unfold. rewrite decide_False; [done|].
    intros H%rfind_zero. congruence.
Qed.

Lemma nntp_normalize_single_prefix_witness :
  _normalize_repo EmailSheet ("news.mozilla.org-" +:+ "dev.platform")
  = Ok ("news.mozilla.org " +:+ "dev.platform") /\
  _normalize_repo EmailSheet "mozilla.dev.platform" = Ok "mozilla.dev.platform".
Proof.
  split.
  - apply (proj1 nntp_normalize_single_prefix).
    apply absent_by_rfind. vm_compute. reflexivity.
  - apply (proj2 nntp_normalize_single_prefix). vm_compute. reflexivity.
Defined.

(** C2 as it was stated fails: an identifier that starts with the prefix
    and holds it once more is returned unchanged, its leading prefix is
    not rewritten. *)
Lemma nntp_second_occurrence_unchanged :
  Py.startswith "news.mozilla.org-a.news.mozilla.org-b" "news.mozilla.org-" = true /\
  _normalize_repo EmailSheet "news.mozilla.org-a.news.mozilla.org-b"
    = Ok "news.mozilla.org-a.news.mozilla.org-b" /\
  _normalize_repo EmailSheet "news.mozilla.org-a.news.mozilla.org-b"
    <> Ok "news.mozilla.org a.news.mozilla.org-b".
Proof. split_and!; [vm_compute; reflexivity.. | vm_compute; discriminate]. Qed.

(** In general: with the prefix again in the rest, nothing is rewritten. *)
Lemma nntp_later_occurrence_unchanged rest :
  occurs "news.mozilla.org-" rest ->
  _normalize_repo EmailSheet ("news.mozilla.org-" +:+ rest)
  = Ok ("news.mozilla.org-" +:+ rest).
Proof.
  intros (a & b & ->). rewrite email_normalize_unfold.
  rewrite decide_False; [reflexivity|].
  rewrite app_cons. apply rfind_cons_later.
  exists ("ews.mozilla.org-" +:+ a), b. symmetry. apply string_app_assoc.
Qed.

(** ** Rows and their entries *)

Lemma row_entry_Ok cls sheet row repo project :
  row_entry cls sheet row = Ok (repo, project) <->
  exists raw c,
    _get_repo cls (repo_columns cls) sheet row = Ok raw /\
    _normalize_repo cls raw = Ok repo /\
    cell sheet row (project_column cls) = Ok c /\
    project = project_of_cell c.
Proof.
  unfold row_entry, project_of_cell. rewrite bind_Ok. split.
  - intros (raw & Hraw & (repo' & Hrepo & (c & Hc & [= <- <-])%bind_Ok)%bind_Ok).
    by exists raw, c.
  - intros (raw & c & Hraw & Hrepo & Hc & ->). exists raw. split; [done|].
    apply bind_Ok. exists repo. split; [done|]. apply bind_Ok. by exists c.
Qed.

(** ** Duplicate repos in a sheet *)

(** C9.  A sheet is read without an error whenever each of its rows can
    be read, whatever keys the rows share; and the result maps a repo to
    the project of the last row that made it. *)
Theorem last_row_wins (cls : SheetClass) (sheet : worksheet) :
  (forall row, (1 <= row < nrows sheet)%nat ->
     exists e, row_entry cls sheet row = Ok e) ->
  exists projects,
    get_repos cls sheet = Ok projects /\
    forall row repo project,
      (1 <= row < nrows sheet)%nat ->
      row_entry cls sheet row = Ok (repo, project) ->
      (forall row' e', (row < row' < nrows sheet)%nat ->
         row_entry cls sheet row' = Ok e' -> e'.1 <> repo) ->
      projects !! repo = Some project.
Proof.
  intros Hall. destruct (get_repos_total cls sheet Hall) as [m Hm].
  exists m. split; [done|]. intros row repo project. by apply get_repos_last.
Qed.

(** ** Where the repos of the sheets come from *)

Lemma files_from_sheet o wb spreadsheet n kind cls R P :
  read_sheets o wb = Ok spreadsheet -> sheet_kind n = Some (kind, cls) ->
  files spreadsheet kind R P <->
  exists sheet repos, last_named n wb = Some sheet /\
    get_repos cls sheet = Ok repos /\ repos !! R = Some P.
Proof.
  intros (Ha & _ & _)%read_sheets_spec Hn. unfold files. split.
  - intros (m & Hm & HR). apply (Ha _ _ _ Hn) in Hm as (sheet & ? & ?).
    by exists sheet, m.
  - intros (sheet & m & ? & ? & HR). exists m. split; [|done].
    apply (Ha _ _ _ Hn). by exists sheet.
Qed.

Lemma files_git o wb spreadsheet R' P :
  read_sheets o wb = Ok spreadsheet ->
  files spreadsheet "git" R' P <->
  exists R, R' = R +:+ ".git" /\ files spreadsheet "github" R P.
Proof.
  intros (_ & Hgit & _)%read_sheets_spec. unfold files. rewrite Hgit.
  destruct (spreadsheet !! "github") as [gh|]; simpl; [|naive_solver].
  rewrite derive_git_kmap. split.
  - intros (m & [= <-] & (R & -> & HR)%lookup_kmap_Some); [|apply _]. eauto.
  - intros (R & -> & m & [= <-] & HR). eexists. split; [done|].
    apply lookup_kmap_Some; [apply _|]. eauto.
Qed.

Lemma main_tree_reads o wb tree :
  main_tree o wb = Ok tree -> exists spreadsheet, read_sheets o wb = Ok spreadsheet.
Proof. intros (sp & ? & _)%main_tree_inv. eauto. Qed.

Lemma main_raises_with_tree o wb : raises (main_tree o wb) -> raises (main o wb).
Proof. unfold main. apply raises_bind_l. Qed.

Lemma main_tree_raises_with_sheets o wb :
  raises (read_sheets o wb) -> raises (main_tree o wb).
Proof. unfold main_tree. apply raises_bind_l. Qed.

(** ** Discourse *)



(** ** GitHub *)

Lemma github_row_is_raw sheet row repo project :
  row_entry GitHubSheet sheet row = Ok (repo, project) -> cell sheet row 0 = Ok repo.
Proof.
  intros (raw & c & Hraw & Hnorm & _)%row_entry_Ok.
  change (cell sheet row 0 = Ok raw) in Hraw.
  change (Ok raw = Ok repo) in Hnorm. congruence.
Qed.

Lemma github_key_is_raw o wb tree P l R :
  main_tree o wb = Ok tree ->
  tree_get tree P "github" = Some (VList l) -> R ∈ l ->
  exists sheet row, last_named "Github" wb = Some sheet /\
    (1 <= row < nrows sheet)%nat /\ cell sheet row 0 = Ok R.
Proof.
  intros Hmain Hl HR. destruct (main_tree_reads _ _ _ Hmain) as [sp Hsp].
  assert (files sp "github" R P) as Hf.
  { apply (final_list o wb sp tree Hsp Hmain); [by intros [_ ?]|].
    exists l. split_and!; [done..|]. unfold kinds. by left. }
  apply (files_from_sheet o wb sp "Github" "github" GitHubSheet) in Hf
    as (sheet & m & Hlast & Hget & Hm); [|done..].
  destruct (get_repos_inv _ _ _ _ _ Hget Hm) as (row & Hrow & He).
  exists sheet, row. split; [done|]. split; [done|]. by eapply github_row_is_raw.
Qed.

Lemma git_key_is_raw o wb tree P l R' :
  main_tree o wb = Ok tree ->
  tree_get tree P "git" = Some (VList l) -> R' ∈ l ->
  exists sheet row R, last_named "Github" wb = Some sheet /\
    (1 <= row < nrows sheet)%nat /\ cell sheet row 0 = Ok R /\
    R' = R +:+ ".git".
Proof.
  intros Hmain Hl HR. destruct (main_tree_reads _ _ _ Hmain) as [sp Hsp].
  assert (files sp "git" R' P) as Hf.
  { apply (final_list o wb sp tree Hsp Hmain); [by intros [_ ?]|].
    exists l. split_and!; [done..|]. unfold kinds. right. by left. }
  apply (files_git o wb sp) in Hf as (R & -> & Hf); [|done].
  apply (files_from_sheet o wb sp "Github" "github" GitHubSheet) in Hf
    as (sheet & m & Hlast & Hget & Hm); [|done..].
  destruct (get_repos_inv _ _ _ _ _ Hget Hm) as (row & Hrow & He).
  exists sheet, row, R. split; [done|]. split; [done|].
  split; [by eapply github_row_is_raw | done].
Qed.

(** C8, as the code has it.  [normalized_ghrepo] rewrites the first
    [https://] of its argument, wherever it stands, to [http://] and then
    puts the whole string in lower case; a string without [https://] is
    put in lower case only.  [main] does not call it: a key under [github]
    is the cell of a row of the Github sheet as it is written there, and a
    key under [git] is such a cell with [.git] appended. *)
Theorem ghrepo_utility_not_applied :
  (forall a b, first_occurrence "https://" a b ->
     normalized_ghrepo (a +:+ "https://" +:+ b) = Py.lower (a +:+ "http://" +:+ b)) /\
  (forall s, ~ occurs "https://" s -> normalized_ghrepo s = Py.lower s) /\
  (forall o wb tree P l R,
     main_tree o wb = Ok tree ->
     tree_get tree P "github" = Some (VList l) -> R ∈ l ->
     exists sheet row, last_named "Github" wb = Some sheet /\
       (1 <= row < nrows sheet)%nat /\ cell sheet row 0 = Ok R) /\
  (forall o wb tree P l R',
     main_tree o wb = Ok tree ->
     tree_get tree P "git" = Some (VList l) -> R' ∈ l ->
     exists sheet row R, last_named "Github" wb = Some sheet /\
       (1 <= row < nrows sheet)%nat /\ cell sheet row 0 = Ok R /\
       R' = R +:+ ".git").
Proof.
  split_and!.
  - apply ghrepo_first.
  - apply ghrepo_absent.
  - apply github_key_is_raw.
  - apply git_key_is_raw.
Qed.

Lemma ghrepo_utility_not_applied_witness :
  normalized_ghrepo ("git+" +:+ "https://" +:+ "GitHub.com/Mozilla/Gecko")
    = Py.lower ("git+" +:+ "http://" +:+ "GitHub.com/Mozilla/Gecko") /\
  normalized_ghrepo "HTTP://GitHub.com/Mozilla" = Py.lower "HTTP://GitHub.com/Mozilla" /\
  (exists sheet row, last_named "Github" wb_ex = Some sheet /\
     (1 <= row < nrows sheet)%nat /\
     cell sheet row 0 = Ok "https://github.com/mozilla/B") /\
  (exists sheet row R, last_named "Github" wb_ex = Some sheet /\
     (1 <= row < nrows sheet)%nat /\ cell sheet row 0 = Ok R /\
     "https://github.com/mozilla/B.git" = R +:+ ".git").
Proof.
  destruct ghrepo_utility_not_applied as (H1 & H2 & H3 & H4). split_and!.
  - apply H1. intros a' b' H.
    do 4 (destruct a' as [|? a']; [discriminate H|]). simpl. lia.
  - apply H2. apply absent_by_rfind. vm_compute. reflexivity.
  - apply (H3 canonical_order wb_ex tree_ex "Firefox OS"
             ["https://github.com/mozilla/B"]).
    + exact tree_ex_built.
    + vm_compute. reflexivity.
    + left.
  - apply (H4 canonical_order wb_ex tree_ex "Firefox OS"
             ["https://github.com/mozilla/B.git"]).
    + exact tree_ex_built.
    + vm_compute. reflexivity.
    + left.
Defined.

(** C8 as it was stated fails: the scheme is rewritten also where it is
    not at the start of the string. *)
Lemma ghrepo_inner_scheme_rewritten :
  Py.startswith "git+https://GitHub.com/Mozilla" "https://" = false /\
  normalized_ghrepo "git+https://GitHub.com/Mozilla" = "git+http://github.com/mozilla" /\
  normalized_ghrepo "git+https://GitHub.com/Mozilla"
    <> Py.lower "git+https://GitHub.com/Mozilla".
Proof. split_and!; [vm_compute; reflexivity.. | vm_compute; discriminate]. Qed.

(** ** Bugzilla *)

Lemma replace_space_plus s : Py.replace s " " "+" None = plus_for_spaces s.
Proof.
  unfold Py.replace. induction s as [|c s IH]; [done|].
  cbn [Py.replace_go plus_for_spaces Py.exhausted negb andb Py.startswith].
  destruct (decide (" "%char = c)) as [<-|Hc].
  - rewrite decide_True by done. simpl Py.spend. simpl pred.
    rewrite IH. reflexivity.
  - rewrite decide_False by congruence. by rewrite IH.
Qed.

Lemma bugzilla_row sheet row url product component project :
  cell sheet row 0 = Ok url -> cell sheet row 1 = Ok product ->
  cell sheet row 2 = Ok component -> cell sheet row 3 = Ok project ->
  row_entry BugzillaSheet sheet row =
  Ok (url +:+ "/bugs/buglist.cgi?product=" +:+ plus_for_spaces product +:+
        "&component=" +:+ plus_for_spaces component,
      project_of_cell project).
Proof.
  intros H0 H1 H2 H3. unfold row_entry.
  change (_get_repo BugzillaSheet (repo_columns BugzillaSheet) sheet row)
    with (url ← cell sheet row 0; product ← cell sheet row 1;
          component ← cell sheet row 2;
          Ok (normalized_bzrepo url product component)).
  rewrite H0. simpl. rewrite H1. simpl. rewrite H2. simpl. rewrite H3. simpl.
  unfold normalized_bzrepo, project_of_cell. by rewrite !replace_space_plus.
Qed.

(** How a repo of a sheet reaches the tree. *)
Lemma sheet_repo_in_tree o wb tree n kind cls sheet repos R P :
  main_tree o wb = Ok tree -> sheet_kind n = Some (kind, cls) ->
  last_named n wb = Some sheet -> get_repos cls sheet = Ok repos ->
  repos !! R = Some P -> ~ (P = "unknown" /\ kind = "discourse") ->
  exists l, tree_get tree P kind = Some (VList l) /\ R ∈ l.
Proof.
  intros Hmain Hn Hlast Hget HR Hnot.
  destruct (main_tree_reads _ _ _ Hmain) as [sp Hsp].
  assert (files sp kind R P) as Hf.
  { apply (files_from_sheet o wb sp n kind cls); [done..|]. by exists sheet, repos. }
  apply (final_list o wb sp tree Hsp Hmain) in Hf as (l & ? & ? & _); [|done].
  by exists l.
Qed.

Lemma sheet_is_read o wb tree n kind cls sheet :
  main_tree o wb = Ok tree -> sheet_kind n = Some (kind, cls) ->
  last_named n wb = Some sheet -> exists repos, get_repos cls sheet = Ok repos.
Proof.
  intros Hmain Hn Hlast. destruct (get_repos cls sheet) as [m|e] eqn:Hget; [eauto|].
  apply last_named_elem in Hlast as [Hin <-].
  assert (raises (main_tree o wb)) as Hr.
  { apply main_tree_raises_with_sheets.
    apply (read_sheets_raises o wb sheet kind cls); [done..|]. by rewrite Hget. }
  by rewrite Hmain in Hr.
Qed.

(** C5, as the code has it.  The key of a Bugzilla row is the url
    (column 0), then [/bugs/buglist.cgi?product=] and the product
    (column 1), then [&component=] and the component (column 2), with a
    plus sign for every space of the product and of the component.  Its
    project is the cell of column 3, read as [Unknown] when it is empty.
    The key is filed under that project and the kind [bugzilla] when no
    later row of the sheet makes the same key. *)
Theorem bugzilla_row_filed o wb tree sheet row url product component project :
  main_tree o wb = Ok tree ->
  last_named "Bugzilla" wb = Some sheet ->
  (1 <= row < nrows sheet)%nat ->
  cell sheet row 0 = Ok url -> cell sheet row 1 = Ok product ->
  cell sheet row 2 = Ok component -> cell sheet row 3 = Ok project ->
  let key := url +:+ "/bugs/buglist.cgi?product=" +:+ plus_for_spaces product +:+
             "&component=" +:+ plus_for_spaces component in
  row_entry BugzillaSheet sheet row = Ok (key, project_of_cell project) /\
  ((forall row' e', (row < row' < nrows sheet)%nat ->
      row_entry BugzillaSheet sheet row' = Ok e' -> e'.1 <> key) ->
   exists l, tree_get tree (project_of_cell project) "bugzilla" = Some (VList l) /\
             key ∈ l).
Proof.
  intros Hmain Hlast Hrow H0 H1 H2 H3 key.
  pose proof (bugzilla_row _ _ _ _ _ _ H0 H1 H2 H3) as He. fold key in He.
  split; [done|]. intros Hlater.
  destruct (sheet_is_read o wb tree "Bugzilla" "bugzilla" BugzillaSheet sheet)
    as [m Hget]; [done..|].
  apply (sheet_repo_in_tree o wb tree "Bugzilla" "bugzilla" BugzillaSheet sheet m);
    [done..| |by intros [_ ?]].
  by eapply get_repos_last.
Qed.

Lemma bugzilla_row_filed_witness :
  row_entry BugzillaSheet (default {| name := ""; grid := [] |} (wb_ex !! 1%nat)) 1
    = Ok ("http://bugzilla.example/bugs/buglist.cgi?product=Core&component=XML+Parser",
          "Mozilla") /\
  exists l, tree_get tree_ex "Mozilla" "bugzilla" = Some (VList l) /\
    "http://bugzilla.example/bugs/buglist.cgi?product=Core&component=XML+Parser" ∈ l.
Proof.
  pose proof (bugzilla_row_filed canonical_order wb_ex tree_ex
    (default {| name := ""; grid := [] |} (wb_ex !! 1%nat)) 1%nat
    "http://bugzilla.example" "Core" "XML Parser" "Mozilla") as H.
  destruct H as [H1 H2].
  - exact tree_ex_built.
  - reflexivity.
  - vm_compute. lia.
  - reflexivity.
  - reflexivity.
  - reflexivity.
  - reflexivity.
  - split; [exact H1|]. apply H2. intros row' e' Hr. vm_compute in Hr. lia.
Defined.

(** C5 as it was stated fails: of two rows that make the same key the
    first one is not filed under its project, which is not even in the
    tree; and a row whose project cell is empty is filed under [Unknown],
    not under the empty name. *)
Lemma bugzilla_earlier_row_not_filed :
  row_entry BugzillaSheet (default {| name := ""; grid := [] |} (wb_twice !! 0%nat)) 1
    = Ok ("http://bugzilla.example/bugs/buglist.cgi?product=Core&component=XML+Parser",
          "Gecko") /\
  tree_twice !! "Gecko" = None /\
  tree_get tree_twice "Mozilla" "bugzilla"
    = Some (VList ["http://bugzilla.example/bugs/buglist.cgi?product=Core&component=XML+Parser"]) /\
  main_tree canonical_order wb_twice = Ok tree_twice /\
  cell (default {| name := ""; grid := [] |} (wb_blank !! 0%nat)) 1 3 = Ok "" /\
  tree_blank !! "" = None /\
  tree_get tree_blank "Unknown" "bugzilla"
    = Some (VList ["http://bugzilla.example/bugs/buglist.cgi?product=Core&component=XML+Parser"]) /\
  main_tree canonical_order wb_blank = Ok tree_blank.
Proof.
  split_and!.
  - vm_compute. reflexivity.
  - vm_compute. reflexivity.
  - vm_compute. reflexivity.
  - exact tree_twice_built.
  - reflexivity.
  - vm_compute. reflexivity.
  - vm_compute. reflexivity.
  - exact tree_blank_built.
Qed.

(** C4.  Every repo the Github sheet maps to a project is in the list
    [github] of that project, and the repo with [.git] appended is in its
    list [git]; the [git] mapping holds, for every repo of the [github]
    mapping, that repo with [.git] appended and the same project, and
    nothing else. *)
Theorem github_and_git o wb tree sheet github :
  main_tree o wb = Ok tree ->
  last_named "Github" wb = Some sheet ->
  get_repos GitHubSheet sheet = Ok github ->
  (forall R P, github !! R = Some P ->
     exists l l', tree_get tree P "github" = Some (VList l) /\ R ∈ l /\
                  tree_get tree P "git" = Some (VList l') /\ (R +:+ ".git") ∈ l') /\
  (exists spreadsheet git,
     read_sheets o wb = Ok spreadsheet /\
     spreadsheet !! "github" = Some github /\ spreadsheet !! "git" = Some git /\
     forall k P, git !! k = Some P <-> exists R, k = R +:+ ".git" /\ github !! R = Some P).
Proof.
  intros Hmain Hlast Hget.
  destruct (main_tree_reads _ _ _ Hmain) as [sp Hsp].
  destruct (read_sheets_spec _ _ _ Hsp) as (Ha & Hgit & _).
  assert (sp !! "github" = Some github) as Hgh.
  { apply (Ha "Github" "github" GitHubSheet); [done|]. by exists sheet. }
  rewrite Hgh in Hgit. simpl in Hgit. rewrite derive_git_kmap in Hgit.
  split.
  - intros R P HR.
    assert (files sp "github" R P) as Hf1 by (by exists github).
    assert (files sp "git" (R +:+ ".git") P) as Hf2.
    { eexists. split; [done|].
      by rewrite (lookup_kmap (fun R => R +:+ ".git") github R). }
    apply (final_list o wb sp tree Hsp Hmain) in Hf1 as (l & ? & ? & _);
      [|by intros [_ ?]].
    apply (final_list o wb sp tree Hsp Hmain) in Hf2 as (l' & ? & ? & _);
      [|by intros [_ ?]].
    by exists l, l'.
  - exists sp, (kmap (fun R => R +:+ ".git") github). split_and!; [done..|].
    intros k P. by apply lookup_kmap_Some, _.
Qed.

Lemma github_and_git_witness :
  (exists l l', tree_get tree_ex "Unknown" "github" = Some (VList l) /\
     "https://github.com/mozilla/a" ∈ l /\
     tree_get tree_ex "Unknown" "git" = Some (VList l') /\
     ("https://github.com/mozilla/a" +:+ ".git") ∈ l').
Proof.
  refine (proj1 (github_and_git canonical_order wb_ex tree_ex
    (default {| name := ""; grid := [] |} (wb_ex !! 0%nat))
    (from_Ok ∅ (get_repos GitHubSheet
       (default {| name := ""; grid := [] |} (wb_ex !! 0%nat)))) _ _ _)
    "https://github.com/mozilla/a" "Unknown" _).
  - exact tree_ex_built.
  - reflexivity.
  - vm_compute. reflexivity.
  - vm_compute. reflexivity.
Defined.

(** ** The project unknown *)




(** ** meta *)

(** C1, as the code has it.  A project of the tree that the workbook
    files a repo under holds [meta], the name of the project in lower
    case.  The only other project of the tree is [unknown], put there by
    [add_adhoc_repositories], and it holds no [meta]. *)
Theorem meta_of_workbook_projects o wb spreadsheet tree :
  read_sheets o wb = Ok spreadsheet ->
  main_tree o wb = Ok tree ->
  forall P sources, tree !! P = Some sources ->
    ((exists ds r, files spreadsheet ds r P) ->
       sources !! "meta" = Some (VStr (Py.lower P))) /\
    (~ (exists ds r, files spreadsheet ds r P) ->
       P = "unknown" /\ sources !! "meta" = None).
Proof.
  intros Hsp Hmain P d HP.
  pose proof (final_get o wb spreadsheet tree Hsp Hmain P "meta") as Hg.
  unfold tree_get at 1 in Hg. rewrite HP in Hg. cbv zeta in Hg.
  assert (adhoc_url "meta" = None) as Hurl by reflexivity.
  rewrite Hurl in Hg.
  assert (d !! "meta" =
          match aggregate o spreadsheet !! P with
          | Some _ => Some (VStr (Py.lower P))
          | None => None
          end) as ->.
  { rewrite Hg. by destruct (decide (P = "unknown")), (aggregate o spreadsheet !! P). }
  pose proof (project_of_workbook o spreadsheet P) as Hw.
  split.
  - intros [d' Hd']%Hw. by rewrite Hd'.
  - intros Hno.
    destruct (aggregate o spreadsheet !! P) as [d'|] eqn:Hd'.
    { destruct Hno. apply Hw. eauto. }
    split; [|done].
    destruct (proj1 (final_project o wb spreadsheet tree Hsp Hmain P)) as [?|?];
      [eauto | done | done].
Qed.

Lemma meta_of_workbook_projects_witness :
  exists sources, tree_ex !! "Firefox OS" = Some sources /\
    sources !! "meta" = Some (VStr (Py.lower "Firefox OS")).
Proof.
  exists (default ∅ (tree_ex !! "Firefox OS")).
  assert (tree_ex !! "Firefox OS" = Some (default ∅ (tree_ex !! "Firefox OS"))) as H.
  { vm_cast_no_check (eq_refl (tree_ex !! "Firefox OS")). }
  split; [exact H|].
  refine (proj1 (meta_of_workbook_projects canonical_order wb_ex
    (from_Ok ∅ (read_sheets canonical_order wb_ex)) tree_ex _ tree_ex_built
    "Firefox OS" _ H) _).
  - vm_cast_no_check (eq_refl (read_sheets canonical_order wb_ex)).
  - exists "github", "https://github.com/mozilla/B".
    eexists. split; vm_compute; reflexivity.
Defined.

(** C1 as it was stated fails: the project [unknown] that
    [add_adhoc_repositories] makes has no [meta], be the workbook empty
    or not. *)
Lemma unknown_without_meta :
  main_tree canonical_order [] = Ok tree_empty /\
  is_Some (tree_empty !! "unknown") /\
  tree_get tree_empty "unknown" "meta" = None /\
  main_tree canonical_order wb_ex = Ok tree_ex /\
  is_Some (tree_ex !! "unknown") /\
  tree_get tree_ex "unknown" "meta" = None.
Proof.
  split_and!.
  - exact tree_empty_built.
  - apply (final_project canonical_order [] ∅ tree_empty eq_refl tree_empty_built).
    by left.
  - vm_compute. reflexivity.
  - exact tree_ex_built.
  - apply (final_project canonical_order wb_ex
             (from_Ok ∅ (read_sheets canonical_order wb_ex)) tree_ex);
      [vm_cast_no_check (eq_refl (read_sheets canonical_order wb_ex))
      | exact tree_ex_built | by left].
  - vm_compute. reflexivity.
Qed.

(** ** The lists of repos *)

Lemma final_value_shape o wb tree P k v :
  main_tree o wb = Ok tree -> tree_get tree P k = Some v ->
  (k = "meta" /\ v = VStr (Py.lower P)) \/
  (k <> "meta" /\ exists l, v = VList l /\ Sorted String.le l /\ NoDup l).
Proof.
  intros Hmain Hv. destruct (main_tree_reads _ _ _ Hmain) as [sp Hsp].
  rewrite (final_get o wb sp tree Hsp Hmain) in Hv. cbv zeta in Hv.
  assert (forall u : string, Sorted String.le [u] /\ NoDup [u]) as Hone.
  { intros u. split; [by repeat constructor | apply NoDup_singleton]. }
  assert (match aggregate o sp !! P with
          | Some sources =>
              if decide (k = "meta") then Some (VStr (Py.lower P))
              else sorted_list o <$> sources !! k
          | None => None
          end = Some v ->
          (k = "meta" /\ v = VStr (Py.lower P)) \/
          (k <> "meta" /\ exists l, v = VList l /\ Sorted String.le l /\ NoDup l))
    as Hbase.
  { destruct (aggregate o sp !! P) as [d|]; [|done].
    destruct (decide (k = "meta")) as [Hk|Hk]; [intros [= <-]; by left|].
    destruct (d !! k) as [s|]; [|done]. simpl. intros [= <-]. right. split; [done|].
    eexists. split; [done|]. split.
    - apply Sorted_merge_sort, _.
    - rewrite merge_sort_Permutation, set_items_perm. apply NoDup_elements. }
  destruct (decide (P = "unknown")) as [->|HP]; [|by apply Hbase].
  destruct (adhoc_url k) as [u|] eqn:Hu; [|by apply Hbase].
  injection Hv as <-. right. split.
  - intros ->. discriminate Hu.
  - exists [u]. split; [done | apply Hone].
Qed.



Lemma last_row_wins_witness :
  exists projects,
    get_repos BugzillaSheet (default {| name := ""; grid := [] |} (wb_twice !! 0%nat))
      = Ok projects /\
    projects !! "http://bugzilla.example/bugs/buglist.cgi?product=Core&component=XML+Parser"
      = Some "Mozilla".
Proof.
  destruct (last_row_wins BugzillaSheet
              (default {| name := ""; grid := [] |} (wb_twice !! 0%nat)))
    as (m & Hm & Hlast).
  - intros row Hrow. vm_compute in Hrow.
    assert (row = 1 \/ row = 2)%nat as [-> | ->] by lia; eexists; reflexivity.
  - exists m. split; [exact Hm|].
    apply (Hlast 2%nat).
    + vm_compute. lia.
    + reflexivity.
    + intros row' e' Hrow'. vm_compute in Hrow'. lia.
Defined.

(** ** The text that is written *)



(** The text written for a workbook without sheets: four spaces for
    each level, the keys in their order. *)
Example main_empty_workbook :
  main reversed_order [] = Ok (lines
    [ "{";
      "    " +:+ quoted "unknown" +:+ ": {";
      "        " +:+ quoted "bugzillarest" +:+ ": [";
      "            " +:+ quoted "https://bugzilla.mozilla.org";
      "        ],";
      "        " +:+ quoted "discourse" +:+ ": [";
      "            " +:+ quoted "https://discourse.mozilla.org/";
      "        ],";
      "        " +:+ quoted "mediawiki" +:+ ": [";
      "            " +:+ quoted "https://wiki.mozilla.org";
      "        ],";
      "        " +:+ quoted "mozillaclub" +:+ ": [";
      "            " +:+ quoted "https://spreadsheets.google.com/feeds/cells/1QHl2bjBhMslyFzR5XXPzMLdzzx7oeSKTbgR5PM8qp64/ohaibtm/public/values?alt=json";
      "        ],";
      "        " +:+ quoted "remo" +:+ ": [";
      "            " +:+ quoted "https://reps.mozilla.org";
      "        ]";
      "    }";
      "}" ]).
Proof. vm_compute. reflexivity. Qed.

(** * Further properties *)

(** ** The header and the rows *)

Lemma get_repos_from_ext cls sheet1 sheet2 rows acc :
  (forall row, row ∈ rows -> row_entry cls sheet1 row = row_entry cls sheet2 row) ->
  get_repos_from cls sheet1 rows acc = get_repos_from cls sheet2 rows acc.
Proof.
  revert acc. induction rows as [|row rows IH]; intros acc Hext; [done|].
  simpl. rewrite (Hext row) by left.
  destruct (row_entry cls sheet2 row); simpl; [|done].
  apply IH. intros row' ?. apply Hext. by right.
Qed.

Lemma cell_below_header n n' h h' rows row c :
  (1 <= row)%nat ->
  cell {| name := n; grid := h :: rows |} row c
  = cell {| name := n'; grid := h' :: rows |} row c.
Proof. intros Hrow. destruct row as [|row]; [lia|]. reflexivity. Qed.

Lemma row_entry_cells n cls kind sheet1 sheet2 row :
  sheet_kind n = Some (kind, cls) ->
  (forall c, cell sheet1 row c = cell sheet2 row c) ->
  row_entry cls sheet1 row = row_entry cls sheet2 row.
Proof.
  intros Hn%sheet_kind_cases Hc. rewrite !elem_of_cons, elem_of_nil in Hn.
  unfold row_entry.
  destruct Hn as [H|[H|[H|[H|[H|[H|[H|[]]]]]]]]; injection H as _ _ ->;
    cbn [_get_repo repo_columns project_column GitHubSheet Sheet BugzillaSheet
         EmailSheet DiscourseSheet StackOverflow Meetup IRC item lookup
         list_lookup mbind Result_bind];
    by rewrite !Hc.
Qed.

(** X1.  The header is never read: two sheets that differ in their name
    and in row 0 only give the same result, and a sheet of the known
    classes with no row, or with its header alone, gives the empty
    mapping whatever the header holds. *)
Theorem header_is_ignored n0 kind cls :
  sheet_kind n0 = Some (kind, cls) ->
  (forall n n' h h' rows,
     get_repos cls {| name := n; grid := h :: rows |}
     = get_repos cls {| name := n'; grid := h' :: rows |}) /\
  (forall n, get_repos cls {| name := n; grid := [] |} = Ok ∅) /\
  (forall n h, get_repos cls {| name := n; grid := [h] |} = Ok ∅).
Proof.
  intros Hn. split_and!; [|done..].
  intros n n' h h' rows. unfold get_repos, nrows. simpl.
  apply get_repos_from_ext. intros row [Hrow _]%elem_of_seq.
  apply (row_entry_cells n0 cls kind); [done|].
  intros c. by apply cell_below_header.
Qed.

Lemma header_is_ignored_witness :
  get_repos Meetup {| name := "Meetup";
                      grid := [ ["group"; "project"]; ["Mozilla-Berlin"; "Reps"] ] |}
  = get_repos Meetup {| name := "Meetup";
                        grid := [ []; ["Mozilla-Berlin"; "Reps"] ] |}.
Proof.
  apply (proj1 (header_is_ignored "Meetup" "meetup" Meetup eq_refl)).
Defined.

(** ** Projects without a name *)

Lemma get_repos_project_named cls sheet repos R P :
  get_repos cls sheet = Ok repos -> repos !! R = Some P -> P <> "".
Proof.
  intros Hget HR.
  destruct (get_repos_inv _ _ _ _ _ Hget HR) as (row & _ & He).
  apply row_entry_Ok in He as (raw & c & _ & _ & _ & ->).
  unfold project_of_cell. by case_decide.
Qed.

Lemma kinds_cases ds :
  ds ∈ kinds -> ds = "git" \/ exists n cls, sheet_kind n = Some (ds, cls).
Proof.
  unfold kinds. rewrite !elem_of_cons, elem_of_nil.
  intros [->|[->|[->|[->|[->|[->|[->|[->|[]]]]]]]]]; [right|left|right..];
    try done.
  - by exists "Github", GitHubSheet.
  - by exists "Bugzilla", BugzillaSheet.
  - by exists "Mailing lists", EmailSheet.
  - by exists "Discourse", DiscourseSheet.
  - by exists "StackOverflow", StackOverflow.
  - by exists "Meetup", Meetup.
  - by exists "IRC", IRC.
Qed.

(** Whatever the sheets file comes from a row of a sheet of the
    workbook. *)
Lemma files_origin o wb spreadsheet ds R P :
  read_sheets o wb = Ok spreadsheet -> files spreadsheet ds R P ->
  exists n kind cls sheet repos R0,
    sheet_kind n = Some (kind, cls) /\ last_named n wb = Some sheet /\
    get_repos cls sheet = Ok repos /\ repos !! R0 = Some P /\
    ((ds = kind /\ R = R0) \/ (ds = "git" /\ kind = "github" /\ R = R0 +:+ ".git")).
Proof.
  intros Hsp Hf.
  assert (ds ∈ kinds) as Hk.
  { destruct Hf as (m & Hm & _). apply (read_sheets_spec _ _ _ Hsp). eauto. }
  destruct (kinds_cases _ Hk) as [->|(n & cls & Hn)].
  - apply (files_git o wb) in Hf as (R0 & -> & Hf); [|done].
    apply (files_from_sheet o wb _ "Github" "github" GitHubSheet) in Hf
      as (sheet & m & ? & ? & ?); [|done..].
    exists "Github", "github", GitHubSheet, sheet, m, R0. split_and!; try done.
    by right.
  - apply (files_from_sheet o wb _ n ds cls) in Hf as (sheet & m & ? & ? & ?);
      [|done..].
    exists n, ds, cls, sheet, m, R. split_and!; try done. by left.
Qed.

(** X2.  No repo is filed under the empty name: an empty project cell
    is read as [Unknown], so the result of a sheet maps no repo to the
    empty name and the tree has no project of that name. *)
Theorem no_project_without_name :
  (forall cls sheet repos R P,
     get_repos cls sheet = Ok repos -> repos !! R = Some P -> P <> "") /\
  (forall o wb tree, main_tree o wb = Ok tree -> tree !! "" = None).
Proof.
  split; [apply get_repos_project_named|].
  intros o wb tree Hmain. destruct (main_tree_reads _ _ _ Hmain) as [sp Hsp].
  apply eq_None_not_Some. intros Hsome.
  apply (final_project o wb sp tree Hsp Hmain) in Hsome as [?|(ds & r & Hf)]; [done|].
  destruct (files_origin o wb sp ds r "" Hsp Hf)
    as (n & kind & cls & sheet & m & R0 & _ & _ & Hget & HR & _).
  by eapply get_repos_project_named.
Qed.

Lemma no_project_without_name_witness : tree_blank !! "" = None.
Proof.
  apply (proj2 no_project_without_name canonical_order wb_blank).
  exact tree_blank_built.
Defined.

(** ** Sheets of other names *)

Lemma read_sheets_known_from o wb acc :
  foldlM (read_sheet o) acc wb = foldlM (read_sheet o) acc (filter known wb).
Proof.
  revert acc. induction wb as [|sheet wb IH]; intros acc; [done|].
  rewrite filter_cons. destruct (decide (known sheet)) as [Hk|Hk]; simpl.
  - destruct (read_sheet o acc sheet); simpl; [apply IH | done].
  - rewrite read_sheet_spec. unfold known in Hk.
    apply eq_None_not_Some in Hk. rewrite Hk. simpl. apply IH.
Qed.

(** X3.  A sheet whose name is none of the seven [main] knows has no
    part in the run: with such sheets taken out of the workbook, be they
    well formed or not, [main] writes the same text or ends with the
    same exception. *)
Theorem other_sheets_ignored o wb : main o wb = main o (filter known wb).
Proof.
  unfold main, main_tree, read_sheets. by rewrite read_sheets_known_from.
Qed.

(** ** Rows that are too short *)

Lemma row_entry_needs_project cls sheet row :
  raises (cell sheet row (project_column cls)) -> raises (row_entry cls sheet row).
Proof.
  intros Hc. unfold row_entry.
  destruct (_get_repo cls (repo_columns cls) sheet row); simpl; [|done].
  destruct (_normalize_repo cls a); simpl; [|done].
  by destruct (cell sheet row (project_column cls)).
Qed.

(** X4.  A data row of a known sheet that has no cell in the column of
    the project ends the run: [main] raises and writes nothing. *)
Theorem short_row_ends_run o wb sheet kind cls row :
  sheet ∈ wb -> sheet_kind (name sheet) = Some (kind, cls) ->
  (1 <= row < nrows sheet)%nat ->
  raises (cell sheet row (project_column cls)) ->
  raises (main o wb).
Proof.
  intros Hin Hkind Hrow Hc.
  apply main_raises_with_tree, main_tree_raises_with_sheets.
  apply (read_sheets_raises o wb sheet kind cls); [done..|].
  apply (get_repos_raises _ _ row); [done|]. by apply row_entry_needs_project.
Qed.

Lemma short_row_ends_run_witness : raises (main canonical_order wb_short).
Proof.
  apply (short_row_ends_run canonical_order wb_short
           {| name := "Bugzilla";
              grid := [ ["url"; "product"; "component"];
                        ["http://bugzilla.example"; "Core"; "XML Parser"] ] |}
           "bugzilla" BugzillaSheet 1%nat).
  - left.
  - reflexivity.
  - vm_compute. lia.
  - exact I.
Defined.

(** ** The tree and the sheets *)

(** X5.  For each of the seven sheets, a repo is in the list of a
    project under the kind of the sheet exactly when the last sheet of
    that name maps the repo to the project; the list [discourse] of
    [unknown], which the adhoc entry replaces, is the one exception. *)
Theorem tree_lists_are_sheet_results o wb tree n kind cls P R :
  main_tree o wb = Ok tree ->
  sheet_kind n = Some (kind, cls) ->
  ~ (P = "unknown" /\ kind = "discourse") ->
  (exists l, tree_get tree P kind = Some (VList l) /\ R ∈ l) <->
  (exists sheet repos, last_named n wb = Some sheet /\
     get_repos cls sheet = Ok repos /\ repos !! R = Some P).
Proof.
  intros Hmain Hn Hnot. destruct (main_tree_reads _ _ _ Hmain) as [sp Hsp].
  rewrite <- (files_from_sheet o wb sp n kind cls R P Hsp Hn).
  rewrite (final_list o wb sp tree Hsp Hmain P kind R Hnot).
  destruct (sheet_kind_not_git _ _ _ Hn) as [_ Hk]. naive_solver.
Qed.

Lemma tree_lists_are_sheet_results_witness :
  (exists l, tree_get tree_ex "Mozilla" "discourse" = Some (VList l) /\ "42" ∈ l) <->
  (exists sheet repos, last_named "Discourse" wb_ex = Some sheet /\
     get_repos DiscourseSheet sheet = Ok repos /\ repos !! "42" = Some "Mozilla").
Proof.
  apply (tree_lists_are_sheet_results canonical_order wb_ex tree_ex
           "Discourse" "discourse" DiscourseSheet "Mozilla" "42").
  - exact tree_ex_built.
  - reflexivity.
  - intros [H _]. discriminate H.
Defined.

(** X6.  The projects of the tree are [unknown] and the projects some
    row of a sheet that [main] reads is filed under, and no other. *)
Theorem tree_projects_are_sheet_projects o wb tree P :
  main_tree o wb = Ok tree ->
  is_Some (tree !! P) <->
  P = "unknown" \/
  exists n kind cls sheet repos R,
    sheet_kind n = Some (kind, cls) /\ last_named n wb = Some sheet /\
    get_repos cls sheet = Ok repos /\ repos !! R = Some P.
Proof.
  intros Hmain. destruct (main_tree_reads _ _ _ Hmain) as [sp Hsp].
  rewrite (final_project o wb sp tree Hsp Hmain). split.
  - intros [?|(ds & r & Hf)]; [by left|right].
    destruct (files_origin o wb sp ds r P Hsp Hf)
      as (n & kind & cls & sheet & m & R0 & ? & ? & ? & ? & _).
    by exists n, kind, cls, sheet, m, R0.
  - intros [?|(n & kind & cls & sheet & m & R & Hn & ? & ? & ?)]; [by left|right].
    exists kind, R. apply (files_from_sheet o wb sp n kind cls); [done..|].
    by exists sheet, m.
Qed.

Lemma tree_projects_are_sheet_projects_witness :
  is_Some (tree_ex !! "Mozilla") <->
  "Mozilla" = "unknown" \/
  exists n kind cls sheet repos R,
    sheet_kind n = Some (kind, cls) /\ last_named n wb_ex = Some sheet /\
    get_repos cls sheet = Ok repos /\ repos !! R = Some "Mozilla".
Proof.
  apply (tree_projects_are_sheet_projects canonical_order wb_ex tree_ex "Mozilla").
  exact tree_ex_built.
Defined.

(** X7.  Under one kind a repo is in the list of one project only: the
    lists of two projects never share a repo (the adhoc list of
    [unknown] under [discourse] apart, which holds no repo of a
    sheet). *)
Theorem repo_in_one_project o wb tree ds P Q R l l' :
  main_tree o wb = Ok tree ->
  ~ (ds = "discourse" /\ (P = "unknown" \/ Q = "unknown")) ->
  tree_get tree P ds = Some (VList l) -> R ∈ l ->
  tree_get tree Q ds = Some (VList l') -> R ∈ l' ->
  P = Q.
Proof.
  intros Hmain Hnot HP HRP HQ HRQ.
  destruct (main_tree_reads _ _ _ Hmain) as [sp Hsp].
  destruct (decide (ds ∈ kinds)) as [Hk|Hk].
  - assert (files sp ds R P) as (m & Hm & HmP).
    { apply (final_list o wb sp tree Hsp Hmain); [tauto|]. by exists l. }
    assert (files sp ds R Q) as (m' & Hm' & HmQ).
    { apply (final_list o wb sp tree Hsp Hmain); [tauto|]. by exists l'. }
    congruence.
  - assert (forall P0 l0, tree_get tree P0 ds = Some (VList l0) -> P0 = "unknown")
      as Hu.
    { intros P0 l0. rewrite (final_get o wb sp tree Hsp Hmain). cbv zeta.
      destruct (decide (P0 = "unknown")) as [|HP0]; [done|].
      destruct (aggregate o sp !! P0) as [d|] eqn:Hd; [|done].
      destruct (decide (ds = "meta")); [done|].
      destruct (d !! ds) as [s|] eqn:Hs; [|done].
      destruct Hk. eapply aggregate_kinds; [|exact Hd|eauto].
      intros k. apply (read_sheets_spec _ _ _ Hsp). }
    by rewrite (Hu P l HP), (Hu Q l' HQ).
Qed.

Lemma repo_in_one_project_witness : "Firefox OS" = "Firefox OS".
Proof.
  apply (repo_in_one_project canonical_order wb_ex tree_ex "github"
           "Firefox OS" "Firefox OS" "https://github.com/mozilla/B"
           ["https://github.com/mozilla/B"] ["https://github.com/mozilla/B"]).
  - exact tree_ex_built.
  - intros [H _]. discriminate H.
  - vm_compute. reflexivity.
  - left.
  - vm_compute. reflexivity.
  - left.
Defined.

Lemma final_list_inhabited o wb tree P k l :
  main_tree o wb = Ok tree -> tree_get tree P k = Some (VList l) ->
  exists r, r ∈ l.
Proof.
  intros Hmain. destruct (main_tree_reads _ _ _ Hmain) as [sp Hsp].
  pose proof (aggregate_populated o sp) as Hpop.
  rewrite (final_get o wb sp tree Hsp Hmain). cbv zeta.
  assert (match aggregate o sp !! P with
          | Some sources =>
              if decide (k = "meta") then Some (VStr (Py.lower P))
              else sorted_list o <$> sources !! k
          | None => None
          end = Some (VList l) -> exists r, r ∈ l) as Hbase.
  { destruct (aggregate o sp !! P) as [d|] eqn:Hd; [|done].
    destruct (decide (k = "meta")); [done|].
    destruct (d !! k) as [s|] eqn:Hs; [|done]. simpl. intros [= <-].
    destruct (populated_source _ _ _ _ _ Hpop Hd Hs) as (r & d' & s' & Hd' & Hs' & Hr).
    assert (s' = s) as -> by congruence. exists r.
    by rewrite merge_sort_Permutation, set_items_perm, elem_of_elements. }
  destruct (decide (P = "unknown")); [|done].
  destruct (adhoc_url k) as [u|]; [|done]. intros [= <-]. exists u. left.
Qed.

(** X8.  No list of the tree is empty, and every project of the tree
    holds at least one list. *)
Theorem tree_lists_not_empty o wb tree :
  main_tree o wb = Ok tree ->
  (forall P k l, tree_get tree P k = Some (VList l) -> l <> []) /\
  (forall P sources, tree !! P = Some sources ->
     exists k l, sources !! k = Some (VList l)).
Proof.
  intros Hmain. destruct (main_tree_reads _ _ _ Hmain) as [sp Hsp].
  pose proof (aggregate_populated o sp) as Hpop.
  split.
  - intros P k l Hl ->.
    destruct (final_list_inhabited o wb tree P k [] Hmain Hl) as [r Hr].
    by apply elem_of_nil in Hr.
  - intros P d Hd. destruct (decide (P = "unknown")) as [->|HP].
    + exists "remo", ["https://reps.mozilla.org"].
      pose proof (final_get o wb sp tree Hsp Hmain "unknown" "remo") as Hg.
      unfold tree_get at 1 in Hg. by rewrite Hd in Hg.
    + assert (is_Some (aggregate o sp !! P)) as [d0 Hd0].
      { apply project_of_workbook.
        destruct (proj1 (final_project o wb sp tree Hsp Hmain P)) as [?|?]; eauto.
        done. }
      destruct (populated_project _ _ _ Hpop Hd0) as (ds & r & d' & s & Hd' & Hs & Hr).
      assert (d' = d0) as -> by congruence.
      exists ds, (merge_sort String.le (set_items o s)).
      pose proof (final_get o wb sp tree Hsp Hmain P ds) as Hg.
      unfold tree_get at 1 in Hg. rewrite Hd in Hg. cbv zeta in Hg.
      rewrite Hd0, decide_False in Hg by done.
      rewrite decide_False in Hg.
      * by rewrite Hg, Hs.
      * intros ->. apply meta_not_kind.
        eapply aggregate_kinds; [|exact Hd0|eauto].
        intros k. apply (read_sheets_spec _ _ _ Hsp).
Qed.

Lemma tree_lists_not_empty_witness :
  (forall P k l, tree_get tree_ex P k = Some (VList l) -> l <> []) /\
  (forall P sources, tree_ex !! P = Some sources ->
     exists k l, sources !! k = Some (VList l)).
Proof. apply (tree_lists_not_empty canonical_order wb_ex), tree_ex_built. Defined.

(** X9.  The list [git] of a project is its list [github] with [.git]
    appended to every repo, up to the order: a project has the one list
    exactly when it has the other, and they are of the same length. *)
Theorem git_list_mirrors_github o wb tree P :
  main_tree o wb = Ok tree ->
  (forall l, tree_get tree P "github" = Some (VList l) ->
     exists l', tree_get tree P "git" = Some (VList l') /\
                l' ≡ₚ (fun R => R +:+ ".git") <$> l) /\
  (forall l', tree_get tree P "git" = Some (VList l') ->
     exists l, tree_get tree P "github" = Some (VList l) /\
               l' ≡ₚ (fun R => R +:+ ".git") <$> l).
Proof.
  intros Hmain. destruct (main_tree_reads _ _ _ Hmain) as [sp Hsp].
  assert (forall ds, ds = "github" \/ ds = "git" ->
            ~ (P = "unknown" /\ ds = "discourse")) as Hnot.
  { intros ds [-> | ->] [_ ?]; done. }
  assert (forall l l', tree_get tree P "github" = Some (VList l) ->
            tree_get tree P "git" = Some (VList l') ->
            l' ≡ₚ (fun R => R +:+ ".git") <$> l) as Hperm.
  { intros l l' Hl Hl'. apply NoDup_Permutation.
    - destruct (final_value_shape o wb tree P "git" _ Hmain Hl')
        as [[? _]|[_ (l0 & [= <-] & _ & ?)]]; done.
    - apply NoDup_fmap_2; [apply _|].
      destruct (final_value_shape o wb tree P "github" _ Hmain Hl)
        as [[? _]|[_ (l0 & [= <-] & _ & ?)]]; done.
    - intros x. rewrite list_elem_of_fmap. split.
      + intros Hx. assert (files sp "git" x P) as Hf.
        { apply (final_list o wb sp tree Hsp Hmain); [by apply Hnot; right|].
          exists l'. split_and!; [done..|]. unfold kinds. right. left. }
        apply (files_git o wb sp) in Hf as (R & -> & Hf); [|done].
        exists R. split; [done|].
        apply (final_list o wb sp tree Hsp Hmain) in Hf as (l0 & Hl0 & ? & _);
          [|by apply Hnot; left].
        rewrite Hl in Hl0. by injection Hl0 as <-.
      + intros (R & -> & HR). assert (files sp "github" R P) as Hf.
        { apply (final_list o wb sp tree Hsp Hmain); [by apply Hnot; left|].
          exists l. split_and!; [done..|]. unfold kinds. left. }
        assert (files sp "git" (R +:+ ".git") P) as Hf'.
        { apply (files_git o wb sp); [done|]. eauto. }
        apply (final_list o wb sp tree Hsp Hmain) in Hf' as (l0 & Hl0 & ? & _);
          [|by apply Hnot; right].
        rewrite Hl' in Hl0. by injection Hl0 as <-. }
  split.
  - intros l Hl. destruct (final_list_inhabited o wb tree P _ l Hmain Hl) as [R HR].
    assert (files sp "github" R P) as Hf.
    { apply (final_list o wb sp tree Hsp Hmain); [by apply Hnot; left|].
      exists l. split_and!; [done..|]. unfold kinds. left. }
    assert (files sp "git" (R +:+ ".git") P) as Hf'.
    { apply (files_git o wb sp); [done|]. eauto. }
    apply (final_list o wb sp tree Hsp Hmain) in Hf' as (l' & Hl' & _);
      [|by apply Hnot; right].
    exists l'. split; [done | by apply Hperm].
  - intros l' Hl'. destruct (final_list_inhabited o wb tree P _ l' Hmain Hl') as [x Hx].
    assert (files sp "git" x P) as Hf.
    { apply (final_list o wb sp tree Hsp Hmain); [by apply Hnot; right|].
      exists l'. split_and!; [done..|]. unfold kinds. right. left. }
    apply (files_git o wb sp) in Hf as (R & -> & Hf); [|done].
    apply (final_list o wb sp tree Hsp Hmain) in Hf as (l & Hl & _);
      [|by apply Hnot; left].
    exists l. split; [done | by apply Hperm].
Qed.

Lemma git_list_mirrors_github_witness :
  exists l', tree_get tree_ex "Unknown" "git" = Some (VList l') /\
    l' ≡ₚ (fun R => R +:+ ".git") <$> ["https://github.com/mozilla/a"].
Proof.
  apply (proj1 (git_list_mirrors_github canonical_order wb_ex tree_ex "Unknown"
           tree_ex_built)).
  vm_compute. reflexivity.
Defined.

(** ** How a run ends *)












(** ** The characters of the text *)

Lemma all_chars_app p a b :
  all_chars p (a +:+ b) = all_chars p a && all_chars p b.
Proof.
  induction a as [|c a IH]; [done|]. rewrite app_cons. simpl.
  by rewrite IH, andb_assoc.
Qed.

Lemma escape_plain c : all_chars plain (Json.escape c) = true.
Proof. destruct c as [[] [] [] [] [] [] [] []]; vm_compute; reflexivity. Qed.

Lemma escape_all_plain s : all_chars plain (Json.escape_all s) = true.
Proof.
  induction s as [|c s IH]; [done|]. simpl.
  by rewrite all_chars_app, escape_plain, IH.
Qed.

Lemma encode_str_plain s : all_chars plain (Json.encode_str s) = true.
Proof.
  unfold Json.encode_str. cbn [all_chars].
  by rewrite all_chars_app, escape_all_plain.
Qed.

Lemma spaces_plain n : all_chars plain (Json.spaces n) = true.
Proof. induction n as [|n IH]; [done|]. simpl. by rewrite IH. Qed.

Lemma newline_indent_plain level : all_chars plain (Json.newline_indent level) = true.
Proof. unfold Json.newline_indent. cbn [all_chars]. by rewrite spaces_plain. Qed.

Lemma join_plain sep items :
  all_chars plain sep = true ->
  Forall (fun s => all_chars plain s = true) items ->
  all_chars plain (Json.join sep items) = true.
Proof.
  intros Hsep Hitems. unfold Json.join.
  destruct Hitems as [|x rest Hx Hrest]; [done|].
  revert x Hx. induction Hrest as [|y rest Hy _ IH]; intros x Hx; [done|].
  simpl. apply IH. by rewrite !all_chars_app, Hx, Hsep, Hy.
Qed.

Lemma block_plain opening closing level items :
  all_chars plain opening = true -> all_chars plain closing = true ->
  Forall (fun s => all_chars plain s = true) items ->
  all_chars plain (Json.block opening closing level items) = true.
Proof.
  intros Ho Hc Hitems. unfold Json.block.
  destruct items as [|x rest]; [by rewrite all_chars_app, Ho, Hc|].
  rewrite !all_chars_app, Ho, Hc, !newline_indent_plain.
  rewrite join_plain; [done| |done].
  rewrite all_chars_app. by rewrite newline_indent_plain.
Qed.

Lemma dump_value_plain level v out :
  Json.dump_value level v = Ok out -> all_chars plain out = true.
Proof.
  destruct v as [s|l|s]; simpl; [done| |].
  - intros [= <-]. apply block_plain; [done..|].
    apply Forall_fmap, Forall_forall. intros x _. apply encode_str_plain.
  - intros [= <-]. apply encode_str_plain.
Qed.

Lemma mapR_Forall {A B} (f : A -> Result B) (Q : B -> Prop) l bs :
  (forall a b, f a = Ok b -> Q b) -> Json.mapR f l = Ok bs -> Forall Q bs.
Proof.
  intros Hf. revert bs. induction l as [|a l IH]; intros bs; simpl.
  - by intros [= <-].
  - intros (b & Hb & (bs' & Hbs' & [= <-])%bind_Ok)%bind_Ok.
    constructor; [by eapply Hf | by apply IH].
Qed.

Lemma dump_dict_plain {A} o (dump : nat -> A -> Result string) level d out :
  (forall level a out, dump level a = Ok out -> all_chars plain out = true) ->
  Json.dump_dict o dump level d = Ok out -> all_chars plain out = true.
Proof.
  intros Hdump. unfold Json.dump_dict.
  intros (items & Hitems & [= <-])%bind_Ok.
  apply block_plain; [done..|].
  eapply mapR_Forall; [|exact Hitems]. simpl.
  intros e b (v & Hv & [= <-])%bind_Ok.
  rewrite !all_chars_app, encode_str_plain. simpl. by eapply Hdump.
Qed.

(** X11.  Whatever characters the cells hold, the text [main] writes
    is made of line feeds and of printable characters of ASCII only:
    every other character of a name or of a repo is written as an escape
    sequence. *)
Theorem output_is_ascii o wb out :
  main o wb = Ok out -> all_chars plain out = true.
Proof.
  unfold main. intros (tree & _ & Hout)%bind_Ok. revert Hout.
  apply dump_dict_plain. intros level d out'. apply dump_dict_plain.
  apply dump_value_plain.
Qed.

Lemma output_is_ascii_witness :
  all_chars plain (from_Ok "" (main canonical_order wb_ex)) = true.
Proof.
  apply (output_is_ascii canonical_order wb_ex).
  vm_cast_no_check (eq_refl (main canonical_order wb_ex)).
Defined.

(** ** normalized_ghrepo *)

Lemma lower_app a b : Py.lower (a +:+ b) = Py.lower a +:+ Py.lower b.
Proof. induction a as [|c a IH]; [done|]. rewrite app_cons. simpl. by rewrite IH. Qed.

Lemma lower_char_idemp c : Py.lower_char (Py.lower_char c) = Py.lower_char c.
Proof. destruct c as [[] [] [] [] [] [] [] []]; vm_compute; reflexivity. Qed.

Lemma lower_idemp s : Py.lower (Py.lower s) = Py.lower s.
Proof. induction s as [|c s IH]; [done|]. simpl. by rewrite lower_char_idemp, IH. Qed.

(** Where [sub] does not start the string, it occurs only further on. *)
Lemma occurs_skip sub c r :
  Py.startswith (String c r) sub = false -> occurs sub (String c r) -> occurs sub r.
Proof.
  intros Hs (a & b & Heq). destruct a as [|x a].
  - rewrite app_nil_l in Heq.
    assert (Py.startswith (String c r) sub = true) as Ht
      by (apply startswith_spec; eauto).
    congruence.
  - rewrite app_cons in Heq. injection Heq as _ ->. by exists a, b.
Qed.

(** X12.  For a rest that holds no [https://]: the https and the http
    spelling of an address are normalised alike, to [http://] and the
    rest in lower case; a scheme written in capitals is only put in lower
    case and stays https.  The result is always in lower case. *)
Theorem ghrepo_schemes :
  (forall r, ~ occurs "https://" r ->
     normalized_ghrepo ("https://" +:+ r) = "http://" +:+ Py.lower r /\
     normalized_ghrepo ("http://" +:+ r) = "http://" +:+ Py.lower r /\
     normalized_ghrepo ("HTTPS://" +:+ r) = "https://" +:+ Py.lower r) /\
  (forall s, Py.lower (normalized_ghrepo s) = normalized_ghrepo s).
Proof.
  split.
  - intros r Hno. split_and!.
    + rewrite <- (app_nil_l ("https://" +:+ r)).
      rewrite ghrepo_first; [by rewrite app_nil_l, lower_app|].
      intros a' b' _. simpl. lia.
    + rewrite ghrepo_absent; [by rewrite lower_app|].
      intros Hocc. apply Hno. rewrite !app_cons, app_nil_l in Hocc.
      repeat (apply occurs_skip in Hocc; [|reflexivity]). exact Hocc.
    + rewrite ghrepo_absent; [by rewrite lower_app|].
      intros Hocc. apply Hno. rewrite !app_cons, app_nil_l in Hocc.
      repeat (apply occurs_skip in Hocc; [|reflexivity]). exact Hocc.
  - intros s. unfold normalized_ghrepo. apply lower_idemp.
Qed.

Lemma ghrepo_schemes_witness :
  normalized_ghrepo ("https://" +:+ "GitHub.com/Mozilla")
    = "http://" +:+ Py.lower "GitHub.com/Mozilla" /\
  normalized_ghrepo ("http://" +:+ "GitHub.com/Mozilla")
    = "http://" +:+ Py.lower "GitHub.com/Mozilla" /\
  normalized_ghrepo ("HTTPS://" +:+ "GitHub.com/Mozilla")
    = "https://" +:+ Py.lower "GitHub.com/Mozilla".
Proof.
  apply (proj1 ghrepo_schemes). apply absent_by_rfind. vm_compute. reflexivity.
Defined.

(** ** normalized_bzrepo *)

Lemma plus_for_spaces_no_space s : all_chars not_space (plus_for_spaces s) = true.
Proof.
  induction s as [|c s IH]; [done|]. simpl. rewrite IH, andb_true_r.
  unfold not_space. destruct (decide (c = " "%char)); by apply bool_decide_eq_true.
Qed.

(** X13.  The key of a Bugzilla repo holds no space unless the url
    holds one, and it is as long as the url, the product and the
    component together with the 37 characters put between them. *)
Theorem bzrepo_has_no_space url product component :
  all_chars not_space url = true ->
  all_chars not_space (normalized_bzrepo url product component) = true /\
  String.length (normalized_bzrepo url product component)
  = (String.length url + String.length product + String.length component + 37)%nat.
Proof.
  intros Hurl. unfold normalized_bzrepo. rewrite !replace_space_plus. split.
  - rewrite !all_chars_app, Hurl, !plus_for_spaces_no_space. reflexivity.
  - assert (forall s, String.length (plus_for_spaces s) = String.length s) as Hlen.
    { intros s. induction s as [|c s IH]; [done|]. simpl. by rewrite IH. }
    rewrite !length_app, !Hlen. simpl. lia.
Qed.

Lemma bzrepo_has_no_space_witness :
  all_chars not_space
    (normalized_bzrepo "http://bugzilla.example" "Firefox OS" "Gaia Core") = true /\
  String.length (normalized_bzrepo "http://bugzilla.example" "Firefox OS" "Gaia Core")
  = (String.length "http://bugzilla.example" + String.length "Firefox OS" +
     String.length "Gaia Core" + 37)%nat.
Proof. apply bzrepo_has_no_space. reflexivity. Defined.

(** ** int and str *)









(** ** Normalisers that keep repos apart *)

Lemma app_eq_length a b x y :
  a +:+ x = b +:+ y -> String.length a = String.length b -> a = b /\ x = y.
Proof.
  revert b. induction a as [|c a IH]; intros [|d b] Heq Hlen; try done.
  rewrite !app_cons in Heq. injection Heq as -> Heq. simpl in Hlen.
  destruct (IH b Heq) as [-> ->]; [lia | done].
Qed.

(** X15.  The keys of StackOverflow tags and of IRC channels keep the
    cells apart: two cells get the same key only when they are the same
    cell, as it is for the sheets whose key is the cell itself. *)
Theorem tags_and_channels_kept_apart :
  (forall a b, _normalize_repo StackOverflow a = _normalize_repo StackOverflow b -> a = b) /\
  (forall a b, _normalize_repo IRC a = _normalize_repo IRC b -> a = b) /\
  (forall a b, _normalize_repo Sheet a = _normalize_repo Sheet b -> a = b).
Proof.
  split_and!.
  - intros a b. cbn [_normalize_repo StackOverflow]. intros H.
    assert (StackOverflow_url +:+ a = StackOverflow_url +:+ b) as H' by congruence.
    by apply (inj (String.app StackOverflow_url)) in H'.
  - intros a b. cbn [_normalize_repo IRC]. intros H0.
    assert ("irc://irc.mozilla.org/" +:+ a +:+
              " /home/bitergia/irc/percevalbot/logs/ChannelLogger/mozilla/#" +:+ a
            = "irc://irc.mozilla.org/" +:+ b +:+
              " /home/bitergia/irc/percevalbot/logs/ChannelLogger/mozilla/#" +:+ b)
      as H by congruence.
    apply (inj (String.app "irc://irc.mozilla.org/")) in H.
    apply app_eq_length in H as [? _]; [done|].
    apply (f_equal String.length) in H. rewrite !length_app in H. lia.
  - intros a b. cbn [_normalize_repo Sheet]. by intros [= H].
Qed.

(** ** add_adhoc_repositories again *)

Lemma tree_ext {A} (t1 t2 : gmap string (gmap string A)) :
  (forall P, is_Some (t1 !! P) <-> is_Some (t2 !! P)) ->
  (forall P k, tree_get t1 P k = tree_get t2 P k) -> t1 = t2.
Proof.
  intros Hsome Hget. apply map_eq. intros P.
  specialize (Hsome P). pose proof (Hget P) as HgP. unfold tree_get in HgP.
  destruct (t1 !! P) as [d1|], (t2 !! P) as [d2|].
  - f_equal. by apply map_eq.
  - destruct Hsome as [[? ?] _]; [eauto | done].
  - destruct Hsome as [_ [? ?]]; [eauto | done].
  - done.
Qed.

(** X16.  [add_adhoc_repositories] touches the five adhoc keys of
    [unknown] and nothing else: every other project and every other key
    of [unknown] is as it was, and a second call changes nothing. *)
Theorem add_adhoc_touches_five_keys tree spreadsheet :
  (forall P, P <> "unknown" ->
     add_adhoc_repositories tree spreadsheet !! P = tree !! P) /\
  (forall k, adhoc_url k = None ->
     tree_get (add_adhoc_repositories tree spreadsheet) "unknown" k
     = tree_get tree "unknown" k) /\
  (forall spreadsheet',
     add_adhoc_repositories (add_adhoc_repositories tree spreadsheet) spreadsheet'
     = add_adhoc_repositories tree spreadsheet).
Proof.
  split_and!.
  - intros P HP. by apply add_adhoc_other.
  - intros k Hk. rewrite add_adhoc_get, Hk. by rewrite decide_True.
  - intros sp'. apply tree_ext.
    + intros P. destruct (decide (P = "unknown")) as [->|HP].
      * split; intros _; apply add_adhoc_unknown.
      * by rewrite add_adhoc_other.
    + intros P k. rewrite !add_adhoc_get.
      destruct (decide (P = "unknown")); [|done]. by destruct (adhoc_url k).
Qed.

Lemma add_adhoc_touches_five_keys_witness :
  tree_get (add_adhoc_repositories tree_ex ∅) "unknown" "meta"
  = tree_get tree_ex "unknown" "meta" /\
  add_adhoc_repositories tree_ex ∅ !! "Mozilla" = tree_ex !! "Mozilla".
Proof.
  destruct (add_adhoc_touches_five_keys tree_ex ∅) as (H1 & H2 & _). split.
  - apply H2. reflexivity.
  - apply H1. discriminate.
Defined.

(** ** The counters of get_repos *)

Lemma get_repos_state_Ok cls sheet rows ps rs p r :
  get_repos_state cls sheet rows ps rs = Ok (p, r) <->
  exists es, Forall2 (fun row e => row_entry cls sheet row = Ok e) rows es /\
             p = foldl put ps es /\
             r = foldl (fun repos e => count_project repos e.2) rs es.
Proof.
  revert ps rs. induction rows as [|row rows IH]; intros ps rs; simpl.
  - split.
    + intros [= <- <-]. exists []. by split; [constructor|].
    + intros (es & ->%Forall2_nil_inv_l & -> & ->). done.
  - rewrite bind_Ok. split.
    + intros (e & He & (es & Hes & -> & ->)%IH). exists (e :: es).
      by split; [constructor|].
    + intros (es & (e & es' & He & Hes & ->)%Forall2_cons_inv_l & -> & ->).
      exists e. split; [done|]. apply IH. by exists es'.
Qed.

Lemma count_project_lookup repos Q P :
  count_project repos Q !! P =
  if decide (P = Q) then Some (S (default 0%nat (repos !! Q))) else repos !! P.
Proof.
  unfold count_project.
  destruct (decide (is_Some (repos !! Q))) as [[m Hm]|Hnone].
  - rewrite (lookup_total_Some _ _ _ Hm), Hm. simpl.
    destruct (decide (P = Q)) as [->|?].
    + rewrite lookup_insert_eq. f_equal. lia.
    + by rewrite lookup_insert_ne.
  - apply eq_None_not_Some in Hnone. rewrite Hnone. simpl.
    destruct (decide (P = Q)) as [->|?].
    + by rewrite lookup_insert_eq.
    + by rewrite lookup_insert_ne.
Qed.

Lemma rows_of_snoc P es e :
  rows_of P (es ++ [e]) =
  if decide (e.2 = P) then S (rows_of P es) else rows_of P es.
Proof.
  unfold rows_of. rewrite filter_app, List.length_app, filter_cons, filter_nil.
  case_decide; simpl; lia.
Qed.

Lemma counters_count es P :
  foldl (fun repos e => count_project repos e.2) ∅ es !! P =
  if decide (rows_of P es = 0%nat) then None else Some (rows_of P es).
Proof.
  induction es as [|e es IH] using rev_ind; [done|].
  rewrite foldl_app. simpl. rewrite count_project_lookup, rows_of_snoc.
  destruct (decide (P = e.2)) as [->|Hne].
  - rewrite (decide_True (P := e.2 = e.2)) by done.
    rewrite decide_False by lia. rewrite IH. by case_decide as H0; [rewrite H0|].
  - rewrite (decide_False (P := e.2 = P)) by done. apply IH.
Qed.

Lemma foldl_put_size es : (size (foldl put ∅ es) <= length es)%nat.
Proof.
  induction es as [|e es IH] using rev_ind.
  { cbn [foldl]. rewrite map_size_empty. simpl. lia. }
  rewrite foldl_put_snoc, List.length_app. simpl.
  destruct (foldl put ∅ es !! e.1) as [v|] eqn:Hv.
  - rewrite map_size_insert_Some by eauto. lia.
  - rewrite map_size_insert_None by done. lia.
Qed.

(** X17.  The loop of [get_repos] counts rows, not repos.  When it ends
    it returns the mapping [get_repos] is known by, and its counter of a
    project is the number of data rows filed under the project, and is
    absent when there is none; the mapping holds at most as many repos as
    the sheet has data rows. *)
Theorem counters_count_rows cls sheet projects repos :
  get_repos_counted cls sheet = Ok (projects, repos) ->
  get_repos cls sheet = Ok projects /\
  exists es,
    Forall2 (fun row e => row_entry cls sheet row = Ok e)
            (seq 1 (nrows sheet - 1)) es /\
    (forall P, repos !! P =
       if decide (rows_of P es = 0%nat) then None else Some (rows_of P es)) /\
    (size projects <= length es)%nat /\ length es = (nrows sheet - 1)%nat.
Proof.
  intros (es & Hes & -> & ->)%get_repos_state_Ok. split.
  - apply get_repos_from_Ok. by exists es.
  - exists es. split_and!; [done| |apply foldl_put_size|].
    + apply counters_count.
    + apply Forall2_length in Hes. by rewrite length_seq in Hes.
Qed.

Lemma counters_count_rows_witness :
  exists projects repos,
    get_repos_counted BugzillaSheet
      (default {| name := ""; grid := [] |} (wb_twice !! 0%nat)) = Ok (projects, repos) /\
    get_repos BugzillaSheet
      (default {| name := ""; grid := [] |} (wb_twice !! 0%nat)) = Ok projects.
Proof.
  set (sheet := default {| name := ""; grid := [] |} (wb_twice !! 0%nat)).
  exists (from_Ok (∅, ∅) (get_repos_counted BugzillaSheet sheet)).1,
         (from_Ok (∅, ∅) (get_repos_counted BugzillaSheet sheet)).2.
  assert (get_repos_counted BugzillaSheet sheet
          = Ok ((from_Ok (∅, ∅) (get_repos_counted BugzillaSheet sheet)).1,
                (from_Ok (∅, ∅) (get_repos_counted BugzillaSheet sheet)).2)) as H.
  { vm_cast_no_check (eq_refl (get_repos_counted BugzillaSheet sheet)). }
  split; [exact H|].
  exact (proj1 (counters_count_rows BugzillaSheet sheet _ _ H)).
Defined.

(** The counters of the sheet with two rows of one key: two rows under
    the one project that keeps the repo, one under the other. *)
Example counters_twice :
  (fun r => (size r.1, r.2 !! "Mozilla", r.2 !! "Gecko"))
    <$> (match get_repos_counted BugzillaSheet
                 (default {| name := ""; grid := [] |} (wb_twice !! 0%nat)) with
         | Ok r => Some r | Raise _ => None end)
  = Some (1%nat, Some 1%nat, Some 1%nat).
Proof. vm_compute. reflexivity. Qed.

(** X18.  The summary printed under [show_projects] has two heading
    lines and then one line for each project counted, and it is the same
    in whatever order the dictionary of the counters is walked. *)
Theorem summary_lines sheet (repos : gmap string nat) :
  (forall o, length (show_projects o sheet repos) = (2 + size repos)%nat) /\
  (forall o1 o2, show_projects o1 sheet repos = show_projects o2 sheet repos).
Proof.
  split.
  - intros o. unfold show_projects. simpl.
    rewrite length_fmap, merge_sort_Permutation, length_fmap, dict_items_perm.
    by rewrite length_map_to_list.
  - intros o1 o2. unfold show_projects. do 3 f_equal.
    apply string_sort_unique. by rewrite !dict_items_perm.
Qed.

(** ** Mailing lists again *)

(** X19.  Normalising a mailing-list identifier twice is the same as
    normalising it once: what the normaliser returns no more starts with
    the prefix it rewrites, or holds it again further on. *)
Theorem nntp_normalize_idempotent s k :
  _normalize_repo EmailSheet s = Ok k -> _normalize_repo EmailSheet k = Ok k.
Proof.
  rewrite email_normalize_unfold.
  destruct (decide (Py.rfind s "news.mozilla.org-" = 0)) as [H0|H0].
  - intros [= <-]. apply rfind_zero, startswith_spec in H0 as [rest ->].
    unfold Py.replace. rewrite replace_go_here by done.
    rewrite email_normalize_unfold. rewrite decide_False; [done|].
    intros Hz%rfind_zero. rewrite !app_cons, app_nil_l in Hz. discriminate Hz.
  - intros [= <-]. rewrite email_normalize_unfold. by rewrite decide_False.
Qed.

Lemma nntp_normalize_idempotent_witness :
  _normalize_repo EmailSheet "news.mozilla.org dev.platform"
  = Ok "news.mozilla.org dev.platform".
Proof.
  apply (nntp_normalize_idempotent "news.mozilla.org-dev.platform").
  vm_compute. reflexivity.
Defined.

(** ** The keys of a sheet *)

(** X20.  The result of a sheet that is read holds the key of every
    data row and no other key. *)
Theorem sheet_keys_are_row_keys cls sheet repos R :
  get_repos cls sheet = Ok repos ->
  is_Some (repos !! R) <->
  exists row project, (1 <= row < nrows sheet)%nat /\
                      row_entry cls sheet row = Ok (R, project).
Proof.
  intros Hget. split.
  - intros [P HP]. destruct (get_repos_inv _ _ _ _ _ Hget HP) as (row & ? & ?).
    by exists row, P.
  - intros (row & project & Hrow & He).
    destruct (get_repos_Ok_rows _ _ _ _ Hget Hrow) as (e & He' & Hin).
    rewrite He in He'. by injection He' as <-.
Qed.

Lemma sheet_keys_are_row_keys_witness :
  is_Some (from_Ok ∅ (get_repos Meetup
             {| name := "Meetup";
                grid := [ ["group"; "project"]; ["Mozilla-Berlin"; "Reps"] ] |})
           !! "Mozilla-Berlin") <->
  exists row project,
    (1 <= row < nrows {| name := "Meetup";
                         grid := [ ["group"; "project"]; ["Mozilla-Berlin"; "Reps"] ] |})%nat /\
    row_entry Meetup {| name := "Meetup";
                        grid := [ ["group"; "project"]; ["Mozilla-Berlin"; "Reps"] ] |} row
    = Ok ("Mozilla-Berlin", project).
Proof.
  apply (sheet_keys_are_row_keys Meetup). reflexivity.
Defined.

(** ** Sheets of one name *)

(** X21.  Of the sheets that bear one of the known names the last one
    alone is kept under its kind, yet every one of them is read: in a run
    that ends, each sheet of a known name was read without an error. *)
Theorem sheets_of_one_name o wb spreadsheet n kind cls :
  read_sheets o wb = Ok spreadsheet ->
  sheet_kind n = Some (kind, cls) ->
  (forall repos, spreadsheet !! kind = Some repos <->
     exists sheet, last_named n wb = Some sheet /\ get_repos cls sheet = Ok repos) /\
  (forall sheet, sheet ∈ wb -> name sheet = n ->
     exists repos, get_repos cls sheet = Ok repos).
Proof.
  intros Hsp Hn. split.
  - by apply (read_sheets_spec _ _ _ Hsp).
  - intros sheet Hin <-. destruct (get_repos cls sheet) as [m|e] eqn:Hget; [eauto|].
    assert (raises (read_sheets o wb)) as Hr.
    { apply (read_sheets_raises o wb sheet kind cls); [done..|]. by rewrite Hget. }
    by rewrite Hsp in Hr.
Qed.

Lemma sheets_of_one_name_witness :
  exists repos,
    get_repos DiscourseSheet (default {| name := ""; grid := [] |} (wb_ex !! 2%nat))
    = Ok repos.
Proof.
  refine (proj2 (sheets_of_one_name canonical_order wb_ex
            (from_Ok ∅ (read_sheets canonical_order wb_ex))
            "Discourse" "discourse" DiscourseSheet _ eq_refl)
            (default {| name := ""; grid := [] |} (wb_ex !! 2%nat)) _ eq_refl).
  - vm_cast_no_check (eq_refl (read_sheets canonical_order wb_ex)).
  - right. right. left.
Defined.
